(** * Re-listen generator: the track pipeline of live.moafunk.de

    Shallow embedding of the two generator scripts
      - [src/frontend/scripts/generate_relisten.py]  (writes a JSON file)
      - [src/generate_relisten.py]                   (writes an HTML page)
    and the properties of their authenticate / resolve / fetch / filter /
    normalize pipeline.

    Python values that travel through the pipeline are JSON scalars; a
    Python [str] is a [string] holding its UTF-8 encoding, a Python
    [dict] with string keys is a [gmap string value], exceptions are an
    explicit error result, and the HTTP calls and prints are events of a
    small interaction type that is run against a server. *)

From Stdlib Require Import ZArith Ascii String List Lia.
From stdpp Require Import base option gmap strings list pretty.

Local Open Scope Z_scope.

(** ** Python values, exceptions and builtins *)

Module Py.

(** The JSON scalars that the fields of a track or of a token reply hold.
    Numbers are integers; a field holding a float, an array or an object
    is outside this model. *)
Inductive value : Type :=
| VNone
| VBool (b : bool)
| VInt (n : Z)
| VStr (s : string).

#[global] Instance value_eq_dec : EqDecision value.
Proof. solve_decision. Defined.

(** A Python dict with string keys: a decoded JSON object. *)
Abbreviation dict := (gmap string value).

Inductive exn : Type :=
| Exception (msg : string)
| KeyError (key : value)
| TypeError
| AttributeError
| JSONDecodeError.

(** A computation that returns or raises. *)
Inductive result (A : Type) : Type :=
| Ok (a : A)
| Err (e : exn).
Arguments Ok {A} a.
Arguments Err {A} e.

#[global] Instance result_ret : MRet result := @Ok.
#[global] Instance result_bind : MBind result := λ A B f m,
  match m with
  | Ok a => f a
  | Err e => Err e
  end.

Definition is_ok {A} (r : result A) : bool :=
  match r with Ok _ => true | Err _ => false end.

(** [bool(v)] *)
Definition truthy (v : value) : bool :=
  match v with
  | VNone => false
  | VBool b => b
  | VInt n => negb (n =? 0)
  | VStr s => negb (String.eqb s "")
  end.

(** [a == b]; booleans compare as the integers 0 and 1. *)
Definition py_eq (a b : value) : bool :=
  match a, b with
  | VNone, VNone => true
  | VStr s, VStr t => String.eqb s t
  | VBool x, VBool y => Bool.eqb x y
  | VBool x, VInt n | VInt n, VBool x => (if x then 1 else 0) =? n
  | VInt n, VInt m => n =? m
  | _, _ => false
  end.

(** [a != b] *)
Definition py_ne (a b : value) : bool := negb (py_eq a b).

(** [a or b] *)
Definition py_or (a b : value) : value := if truthy a then a else b.

(** [str(v)], as an f-string formats a value. *)
Definition py_str (v : value) : string :=
  match v with
  | VNone => "None"
  | VBool true => "True"
  | VBool false => "False"
  | VInt n => pretty n
  | VStr s => s
  end.

(** [d.get(key, default)] and [d.get(key)] *)
Definition get_default (d : dict) (key : string) (dflt : value) : value :=
  default dflt (d !! key).
Definition get (d : dict) (key : string) : value := get_default d key VNone.

(** [d[key]] *)
Definition getitem (d : dict) (key : string) : result value :=
  match d !! key with
  | Some v => Ok v
  | None => Err (KeyError (VStr key))
  end.

(** *** Strings *)

(** A text is held as its UTF-8 encoding, the way a string literal of
    this file holds it. A character (a code point) begins at every byte
    that is not a continuation byte [10xxxxxx]. *)
Definition is_continuation (c : ascii) : bool :=
  match c with
  | Ascii _ _ _ _ _ _ b6 b7 => b7 && negb b6
  end.

(** [len(s)]: the number of characters. *)
Fixpoint str_len (s : string) : nat :=
  match s with
  | EmptyString => 0
  | String c s' => if is_continuation c then str_len s' else S (str_len s')
  end.

(** [s[:n]] for [n >= 0]: the first [n] characters, each with all of its
    bytes. *)
Fixpoint str_take (n : nat) (s : string) {struct s} : string :=
  match s with
  | EmptyString => ""
  | String c s' =>
      if is_continuation c then String c (str_take n s')
      else match n with
           | O => ""
           | S k => String c (str_take k s')
           end
  end.

(** [c * n] for a one-character string [c]. *)
Fixpoint repeat_char (n : nat) (c : ascii) : string :=
  match n with
  | O => ""
  | S k => String c (repeat_char k c)
  end.

(** [s.startswith(p)] *)
Fixpoint startswith (s p : string) {struct p} : bool :=
  match p, s with
  | EmptyString, _ => true
  | String a p', String c s' => Ascii.eqb a c && startswith s' p'
  | String _ _, EmptyString => false
  end.

(** [s.endswith(p)]: some tail of [s] is [p]. *)
Fixpoint endswith (s p : string) : bool :=
  String.eqb s p ||
  match s with
  | EmptyString => false
  | String _ s' => endswith s' p
  end.

(** [p in s] *)
Fixpoint contains (s p : string) : bool :=
  startswith s p ||
  match s with
  | EmptyString => false
  | String _ s' => contains s' p
  end.

(** The scan of [str.replace] for a non-empty [old]: left to right, every
    occurrence that does not overlap an earlier replaced one. [skip]
    counts the bytes of a replaced occurrence still to be dropped; on
    UTF-8 text an occurrence of bytes is an occurrence of characters. *)
Fixpoint replace_from (old new : string) (skip : nat) (s : string) : string :=
  match s with
  | EmptyString => ""
  | String c s' =>
      match skip with
      | S k => replace_from old new k s'
      | O =>
          if startswith s old
          then new +:+ replace_from old new (String.length old - 1) s'
          else String c (replace_from old new 0 s')
      end
  end.

(** [new] before every character and at the end: what [replace] does for
    the empty pattern. *)
Fixpoint interleave (new s : string) : string :=
  match s with
  | EmptyString => new
  | String c s' =>
      if is_continuation c then String c (interleave new s')
      else new +:+ String c (interleave new s')
  end.

(** [s.replace(old, new)] *)
Definition replace (s old new : string) : string :=
  match old with
  | EmptyString => interleave new s
  | String _ _ => replace_from old new 0 s
  end.

(** [v.replace(old, new)] on a value: only [str] has the method. *)
Definition value_replace (v : value) (old new : string) : result value :=
  match v with
  | VStr s => Ok (VStr (replace s old new))
  | _ => Err AttributeError
  end.

(** [v[:n]]: only [str] can be sliced among the scalars. *)
Definition value_take (v : value) (n : nat) : result value :=
  match v with
  | VStr s => Ok (VStr (str_take n s))
  | _ => Err TypeError
  end.

(** [v + w] for a left operand that is a [str]. *)
Definition str_add (v : value) (w : string) : result value :=
  match v with
  | VStr s => Ok (VStr (s +:+ w))
  | _ => Err TypeError
  end.

Definition dquote : string := String "034"%char "".

(** [html.escape(s)] of the standard library, with its default
    [quote=True]: five successive [replace] calls, [&] first. *)
Definition escape (s : string) : string :=
  let s := replace s "&" "&amp;" in
  let s := replace s "<" "&lt;" in
  let s := replace s ">" "&gt;" in
  let s := replace s dquote "&quot;" in
  replace s "'" "&#x27;".

(** [html.escape(v)]: the first [v.replace] raises unless [v] is a [str]. *)
Definition html_escape (v : value) : result value :=
  match v with
  | VStr s => Ok (VStr (escape s))
  | _ => Err AttributeError
  end.

(** *** base64 *)

Definition b64_alphabet : string :=
  "ABCDEFGHIJKLMNOPQRSTUVWXYZabcdefghijklmnopqrstuvwxyz0123456789+/".

Definition b64_digit (n : N) : ascii :=
  default "="%char (String.get (N.to_nat n) b64_alphabet).

Fixpoint b64_groups (bs : list N) : string :=
  match bs with
  | [] => ""
  | [a] =>
      String (b64_digit (a / 4)) (String (b64_digit (a mod 4 * 16)) "==")
  | [a; b] =>
      String (b64_digit (a / 4))
        (String (b64_digit (a mod 4 * 16 + b / 16))
           (String (b64_digit (b mod 16 * 4)) "="))
  | a :: b :: c :: rest =>
      String (b64_digit (a / 4))
        (String (b64_digit (a mod 4 * 16 + b / 16))
           (String (b64_digit (b mod 16 * 4 + c / 64))
              (String (b64_digit (c mod 64)) (b64_groups rest))))
  end%N.

(** [base64.b64encode(s.encode()).decode()]; [encode] leaves the ASCII
    characters of a credential as they are. *)
Definition b64encode (s : string) : string :=
  b64_groups (map N_of_ascii (list_ascii_of_string s)).

End Py.
Export Py.

(** ** HTTP exchanges and the interaction type of the scripts *)

Module Http.

Inductive method : Type := GET | POST.

Record request : Type := {
  req_method : method;
  req_url : string;
  req_headers : list (string * string);
  req_data : list (string * string)
}.

(** What [response.json()] decodes: the API replies with an object (token,
    resolved user) or with an array of objects (track listing). *)
Inductive document : Type :=
| DocObject (o : dict)
| DocArray (items : list dict).

(** A reply of the [requests] library. [body] is [None] when the text is
    not JSON, in which case [response.json()] raises. *)
Record response : Type := {
  status_code : Z;
  text : string;
  body : option document
}.

(** A script run: it returns, raises, prints a line or sends a request and
    goes on with the reply. *)
Inductive io (A : Type) : Type :=
| Ret (a : A)
| Raise (e : exn)
| Print (line : string) (k : io A)
| Send (rq : request) (k : response → io A).
Arguments Ret {A} a.
Arguments Raise {A} e.
Arguments Print {A} line k.
Arguments Send {A} rq k.

Fixpoint io_bind {A B} (f : A → io B) (m : io A) : io B :=
  match m with
  | Ret a => f a
  | Raise e => Raise e
  | Print line k => Print line (io_bind f k)
  | Send rq k => Send rq (λ r, io_bind f (k r))
  end.

#[global] Instance io_ret : MRet io := @Ret.
#[global] Instance io_mbind : MBind io := @io_bind.

Definition print (line : string) : io unit := Print line (Ret tt).
Definition raise {A} (e : exn) : io A := Raise e.

(** A pure step that may raise. *)
Definition lift {A} (r : result A) : io A :=
  match r with
  | Ok a => Ret a
  | Err e => Raise e
  end.

(** [requests.post(url, headers=headers, data=data)] *)
Definition requests_post (url : string) (headers data : list (string * string))
  : io response :=
  Send {| req_method := POST; req_url := url;
          req_headers := headers; req_data := data |} Ret.

(** [requests.get(url, headers=headers)] *)
Definition requests_get (url : string) (headers : list (string * string))
  : io response :=
  Send {| req_method := GET; req_url := url;
          req_headers := headers; req_data := [] |} Ret.

(** [response.json()] *)
Definition json (r : response) : result document :=
  match body r with
  | Some d => Ok d
  | None => Err JSONDecodeError
  end.

(** [doc.get(key)] on a decoded reply: a list has no [get]. *)
Definition doc_get (d : document) (key : string) : result value :=
  match d with
  | DocObject o => Ok (get o key)
  | DocArray _ => Err AttributeError
  end.

(** What a run leaves behind. *)
Inductive event : Type :=
| Printed (line : string)
| Sent (rq : request).

(** Running a script against a server that answers every request. *)
Fixpoint run {A} (server : request → response) (p : io A)
  : list event * result A :=
  match p with
  | Ret a => ([], Ok a)
  | Raise e => ([], Err e)
  | Print line k =>
      let '(tr, r) := run server k in (Printed line :: tr, r)
  | Send rq k =>
      let '(tr, r) := run server (k (server rq)) in (Sent rq :: tr, r)
  end.

Definition outcome {A} (server : request → response) (p : io A) : result A :=
  (run server p).2.

(** The requests of a run, in the order they were sent. *)
Definition requests {A} (server : request → response) (p : io A)
  : list request :=
  omap (λ e, match e with Sent rq => Some rq | Printed _ => None end)
       (run server p).1.

End Http.
Export Http.

(** ** Authentication, resolution, fetch and filter

    [get_access_token] and [fetch_soundcloud_tracks] read the same in both
    scripts but for the address of the token endpoint. *)

Module Fetch.
Section WithEndpoint.

Variable token_url : string.

Definition get_access_token (client_id client_secret : string) : io value :=
  let url := token_url in
  let credentials := b64encode (client_id +:+ ":" +:+ client_secret) in
  let headers :=
    [("Content-Type", "application/x-www-form-urlencoded");
     ("Authorization", "Basic " +:+ credentials)] in
  let data := [("grant_type", "client_credentials")] in
  response ← requests_post url headers data;
  if negb (status_code response =? 200) then
    print ("Failed to get access token: " +:+ pretty (status_code response));;
    print ("Response: " +:+ text response);;
    raise (Exception
             ("Failed to get access token: " +:+ pretty (status_code response)))
  else
    reply ← lift (json response);
    lift (doc_get reply "access_token").

(** The debug lines about the first track of a non-empty listing. *)
Definition print_first_track (tracks : list dict) : io unit :=
  match tracks with
  | [] => mret tt
  | first_track :: _ =>
      print ("First track: "
             +:+ py_str (get_default first_track "title" (VStr "No title")));;
      print ("Streamable: "
             +:+ py_str (get_default first_track "streamable" (VStr "Not set")));;
      print ("Policy: "
             +:+ py_str (get_default first_track "policy" (VStr "Not set")));;
      print ("Sharing: "
             +:+ py_str (get_default first_track "sharing" (VStr "Not set")));;
      print ("State: "
             +:+ py_str (get_default first_track "state" (VStr "Not set")))
  end.

Definition is_streamable (track : dict) : bool :=
  truthy (get_default track "streamable" (VBool false)).

Definition is_public (track : dict) : bool :=
  py_eq (get track "sharing") (VStr "public").

(** The filter stage: the statements of [fetch_soundcloud_tracks] from the
    first list comprehension to its two [return]s. *)
Definition filter_tracks (tracks : list dict) : io (list dict) :=
  let streamable_tracks := List.filter is_streamable tracks in
  print ("Streamable tracks: " +:+ pretty (length streamable_tracks));;
  streamable_tracks ←
    (match streamable_tracks with
     | [] =>
         let streamable_tracks := List.filter is_public tracks in
         print ("Public tracks: " +:+ pretty (length streamable_tracks));;
         mret streamable_tracks
     | _ :: _ => mret streamable_tracks
     end);
  match streamable_tracks with
  | [] =>
      print "No tracks passed filters, returning all for debugging";;
      mret (take 10 tracks)
  | _ :: _ => mret streamable_tracks
  end.

(** The same statements when the listing decoded to an object instead of
    an array: [tracks[0]] and [tracks[:10]] raise on a dict. *)
Definition filter_object (o : dict) : io (list dict) :=
  if decide (o = ∅) then
    print "Streamable tracks: 0";;
    print "Public tracks: 0";;
    print "No tracks passed filters, returning all for debugging";;
    raise TypeError
  else raise (KeyError (VInt 0)).

Definition fetch_soundcloud_tracks (client_id client_secret username : string)
  : io (list dict) :=
  print ("Resolving user: " +:+ username);;
  access_token ← get_access_token client_id client_secret;
  print ("Access token: " +:+ py_str access_token);;
  let '(resolve_headers, resolve_url) :=
    if truthy access_token then
      ([("Authorization", "OAuth " +:+ py_str access_token)],
       "https://api.soundcloud.com/resolve?url=https://soundcloud.com/"
       +:+ username)
    else
      ([],
       "https://api.soundcloud.com/resolve?url=https://soundcloud.com/"
       +:+ username +:+ "&client_id=" +:+ client_id) in
  print ("Resolving URL: " +:+ resolve_url);;
  resolve_response ← requests_get resolve_url resolve_headers;
  print ("Resolve response status: "
         +:+ pretty (status_code resolve_response));;
  print ("Resolve response: "
         +:+ str_take 500 (text resolve_response) +:+ "...");;
  '(headers, url) ←
    (if status_code resolve_response =? 200 then
       user_data ← lift (json resolve_response);
       user_id ← lift (doc_get user_data "id");
       print ("Found user ID: " +:+ py_str user_id);;
       if truthy access_token then
         mret ([("Authorization", "OAuth " +:+ py_str access_token)],
               "https://api.soundcloud.com/users/" +:+ py_str user_id
               +:+ "/tracks?limit=50")
       else
         mret ([],
               "https://api.soundcloud.com/users/" +:+ py_str user_id
               +:+ "/tracks?client_id=" +:+ client_id +:+ "&limit=50")
     else
       print "User resolve failed, trying direct username approach";;
       if truthy access_token then
         mret ([("Authorization", "OAuth " +:+ py_str access_token)],
               "https://api.soundcloud.com/users/" +:+ username
               +:+ "/tracks?limit=50")
       else
         mret ([],
               "https://api.soundcloud.com/users/" +:+ username
               +:+ "/tracks?client_id=" +:+ client_id +:+ "&limit=50"));
  print ("Fetching tracks from: " +:+ url);;
  response ← requests_get url headers;
  print ("Tracks response status: " +:+ pretty (status_code response));;
  print ("Tracks response: " +:+ str_take 500 (text response) +:+ "...");;
  if negb (status_code response =? 200) then
    print ("Failed to fetch tracks: " +:+ pretty (status_code response));;
    print ("Response: " +:+ text response);;
    raise (Exception
             ("Failed to fetch tracks: " +:+ pretty (status_code response)))
  else
    tracks ← lift (json response);
    match tracks with
    | DocArray tracks =>
        print ("Total tracks returned: " +:+ pretty (length tracks));;
        print_first_track tracks;;
        filter_tracks tracks
    | DocObject o =>
        print ("Total tracks returned: " +:+ pretty (size o));;
        filter_object o
    end.

End WithEndpoint.
End Fetch.

(** The statements of [fetch_soundcloud_tracks] that follow the listing
    request, for its reply. *)
Definition after_listing (response : response) : io (list dict) :=
  print ("Tracks response status: " +:+ pretty (status_code response));;
  print ("Tracks response: " +:+ str_take 500 (text response) +:+ "...");;
  if negb (status_code response =? 200) then
    print ("Failed to fetch tracks: " +:+ pretty (status_code response));;
    print ("Response: " +:+ text response);;
    raise (Exception
             ("Failed to fetch tracks: " +:+ pretty (status_code response)))
  else
    tracks ← lift (json response);
    match tracks with
    | DocArray tracks =>
        print ("Total tracks returned: " +:+ pretty (length tracks));;
        Fetch.print_first_track tracks;;
        Fetch.filter_tracks tracks
    | DocObject o =>
        print ("Total tracks returned: " +:+ pretty (size o));;
        Fetch.filter_object o
    end.

(** The API as the scripts see it: one reply for the token request, one
    for the resolve request and one for the track listing. *)
Definition api (token resolve listing : response) (rq : request) : response :=
  match req_method rq with
  | POST => token
  | GET =>
      if startswith (req_url rq) "https://api.soundcloud.com/resolve"
      then resolve else listing
  end.

(** A server that answers every request with an error page. *)
Definition offline (rq : request) : response :=
  {| status_code := 503; text := "Service Unavailable"; body := None |}.

(** ** Normalized tracks *)

(** The dict literal that [format_track_data] builds for each track. *)
Module Formatted.
Record t : Type := {
  id : value;
  title : value;
  artwork_url : value;
  created_at : value;
  duration : value;
  permalink_url : value;
  stream_url : value;
  description : value
}.
End Formatted.

(** ** [src/frontend/scripts/generate_relisten.py]: the JSON-file script *)

Module JsonFile.

Definition get_access_token :=
  Fetch.get_access_token "https://secure.soundcloud.com/oauth/token".

Definition fetch_soundcloud_tracks :=
  Fetch.fetch_soundcloud_tracks "https://secure.soundcloud.com/oauth/token".

(** The body of the [for] loop of [format_track_data]. *)
Definition format_track (track : dict) : result Formatted.t :=
  let artwork_url := get_default track "artwork_url" (VStr "/moafunk.png") in
  artwork_url ←
    (if truthy artwork_url && py_ne artwork_url (VStr "/moafunk.png") then
       artwork_url ← value_replace artwork_url "-large.jpg" "-t500x500.jpg";
       artwork_url ← value_replace artwork_url "-crop.jpg" "-t500x500.jpg";
       value_replace artwork_url "-t300x300.jpg" "-t500x500.jpg"
     else mret artwork_url);
  id ← getitem track "id";
  title ← getitem track "title";
  created_at ← getitem track "created_at";
  duration ← getitem track "duration";
  permalink_url ← getitem track "permalink_url";
  description ←
    (if truthy (get_default track "description" (VStr "")) then
       head ← value_take (get_default track "description" (VStr "")) 200;
       str_add head "..."
     else mret (VStr ""));
  mret {| Formatted.id := id;
          Formatted.title := title;
          Formatted.artwork_url := py_or artwork_url (VStr "/moafunk.png");
          Formatted.created_at := created_at;
          Formatted.duration := duration;
          Formatted.permalink_url := permalink_url;
          Formatted.stream_url := get_default track "stream_url" (VStr "#");
          Formatted.description := description |}.

Definition format_track_data (tracks : list dict)
  : result (list Formatted.t) :=
  mapM format_track tracks.

End JsonFile.

(** ** [src/generate_relisten.py]: the HTML-page script *)

Module HtmlPage.

Definition get_access_token :=
  Fetch.get_access_token "https://api.soundcloud.com/oauth2/token".

Definition fetch_soundcloud_tracks :=
  Fetch.fetch_soundcloud_tracks "https://api.soundcloud.com/oauth2/token".

(** The body of the [for] loop of [format_track_data]. *)
Definition format_track (track : dict) : result Formatted.t :=
  let artwork_url := get_default track "artwork_url" (VStr "./moafunk.png") in
  artwork_url ←
    (if truthy artwork_url && py_ne artwork_url (VStr "./moafunk.png") then
       artwork_url ← value_replace artwork_url "-large.jpg" "-t500x500.jpg";
       artwork_url ← value_replace artwork_url "-crop.jpg" "-t500x500.jpg";
       value_replace artwork_url "-t300x300.jpg" "-t500x500.jpg"
     else mret artwork_url);
  id ← getitem track "id";
  title ← getitem track "title";
  title ← html_escape title;
  created_at ← getitem track "created_at";
  duration ← getitem track "duration";
  permalink_url ← getitem track "permalink_url";
  description ←
    (if truthy (get_default track "description" (VStr "")) then
       head ← value_take (get_default track "description" (VStr "")) 200;
       str_add head "..."
     else mret (VStr ""));
  description ← html_escape description;
  mret {| Formatted.id := id;
          Formatted.title := title;
          Formatted.artwork_url := py_or artwork_url (VStr "./moafunk.png");
          Formatted.created_at := created_at;
          Formatted.duration := duration;
          Formatted.permalink_url := permalink_url;
          Formatted.stream_url := get_default track "stream_url" (VStr "#");
          Formatted.description := description |}.

Definition format_track_data (tracks : list dict)
  : result (list Formatted.t) :=
  mapM format_track tracks.

End HtmlPage.

(** The two output targets of the normalizer. *)
Inductive target : Type := JsonTarget | HtmlTarget.

Definition format_track_data (tg : target) (tracks : list dict)
  : result (list Formatted.t) :=
  match tg with
  | JsonTarget => JsonFile.format_track_data tracks
  | HtmlTarget => HtmlPage.format_track_data tracks
  end.

Definition placeholder (tg : target) : string :=
  match tg with
  | JsonTarget => "/moafunk.png"
  | HtmlTarget => "./moafunk.png"
  end.

(** The three successive rewrites of the artwork address. *)
Definition upgrade_artwork (s : string) : string :=
  replace (replace (replace s "-large.jpg" "-t500x500.jpg")
             "-crop.jpg" "-t500x500.jpg")
    "-t300x300.jpg" "-t500x500.jpg".

(** A string without the character [-]. *)
Definition dash_free (s : string) : bool := negb (contains s "-").

(** How a text field leaves the normalizer: as it is for the JSON file,
    HTML-escaped for the page. *)
Definition out_text (tg : target) (v : value) : result value :=
  match tg with
  | JsonTarget => Ok v
  | HtmlTarget => html_escape v
  end.

(** The contract of one normalized record [ft] for a raw [track]. *)
Record normalized (tg : target) (track : dict) (ft : Formatted.t) : Prop := {
  norm_id : track !! "id" = Some (Formatted.id ft);
  norm_title :
    ∃ v, track !! "title" = Some v ∧ out_text tg v = Ok (Formatted.title ft);
  norm_created_at : track !! "created_at" = Some (Formatted.created_at ft);
  norm_duration : track !! "duration" = Some (Formatted.duration ft);
  norm_permalink_url :
    track !! "permalink_url" = Some (Formatted.permalink_url ft);
  norm_stream_url :
    Formatted.stream_url ft = get_default track "stream_url" (VStr "#");
  norm_artwork_url :
    if truthy (get track "artwork_url")
    then ∃ s, track !! "artwork_url" = Some (VStr s)
              ∧ Formatted.artwork_url ft = VStr (upgrade_artwork s)
    else Formatted.artwork_url ft = VStr (placeholder tg);
  norm_description :
    if truthy (get track "description")
    then ∃ s, track !! "description" = Some (VStr s)
              ∧ out_text tg (VStr (str_take 200 s +:+ "..."))
                = Ok (Formatted.description ft)
    else Formatted.description ft = VStr ""
}.

Definition format_track (tg : target) : dict → result Formatted.t :=
  match tg with
  | JsonTarget => JsonFile.format_track
  | HtmlTarget => HtmlPage.format_track
  end.

(** The artwork statement of the loop body, for either placeholder. *)
Definition artwork_step (ph : string) (track : dict) : result value :=
  let artwork_url := get_default track "artwork_url" (VStr ph) in
  (if truthy artwork_url && py_ne artwork_url (VStr ph) then
       artwork_url ← value_replace artwork_url "-large.jpg" "-t500x500.jpg";
       artwork_url ← value_replace artwork_url "-crop.jpg" "-t500x500.jpg";
       value_replace artwork_url "-t300x300.jpg" "-t500x500.jpg"
     else mret artwork_url).

(** The description expression of the dict literal. *)
Definition description_step (track : dict) : result value :=
  if truthy (get_default track "description" (VStr "")) then
    head ← value_take (get_default track "description" (VStr "")) 200;
    str_add head "..."
  else mret (VStr "").

(** The loop body of either script, statement by statement. *)
Definition loop_body (tg : target) (track : dict) : result Formatted.t :=
  artwork_url ← artwork_step (placeholder tg) track;
  id ← getitem track "id";
  title ← getitem track "title";
  title ← out_text tg title;
  created_at ← getitem track "created_at";
  duration ← getitem track "duration";
  permalink_url ← getitem track "permalink_url";
  description ← description_step track;
  description ← out_text tg description;
  Ok {| Formatted.id := id;
        Formatted.title := title;
        Formatted.artwork_url := py_or artwork_url (VStr (placeholder tg));
        Formatted.created_at := created_at;
        Formatted.duration := duration;
        Formatted.permalink_url := permalink_url;
        Formatted.stream_url := get_default track "stream_url" (VStr "#");
        Formatted.description := description |}.

(** A raw track as the data model describes it: the required fields are
    there, the title is text, artwork and description are text or null. *)
Record well_formed (track : dict) : Prop := {
  wf_id : is_Some (track !! "id");
  wf_title : ∃ s, track !! "title" = Some (VStr s);
  wf_created_at : is_Some (track !! "created_at");
  wf_duration : is_Some (track !! "duration");
  wf_permalink_url : is_Some (track !! "permalink_url");
  wf_artwork_url :
    ∀ v, track !! "artwork_url" = Some v → v = VNone ∨ ∃ s, v = VStr s;
  wf_description :
    ∀ v, track !! "description" = Some v → v = VNone ∨ ∃ s, v = VStr s
}.

(** How the page's record [h] of a raw track relates to the JSON file's
    record [j] of the same track. *)
Record targets_agree (track : dict) (j h : Formatted.t) : Prop := {
  agree_id : Formatted.id h = Formatted.id j;
  agree_created_at : Formatted.created_at h = Formatted.created_at j;
  agree_duration : Formatted.duration h = Formatted.duration j;
  agree_permalink_url :
    Formatted.permalink_url h = Formatted.permalink_url j;
  agree_stream_url : Formatted.stream_url h = Formatted.stream_url j;
  agree_title : html_escape (Formatted.title j) = Ok (Formatted.title h);
  agree_description :
    html_escape (Formatted.description j) = Ok (Formatted.description h);
  agree_artwork_url :
    if truthy (get track "artwork_url")
    then Formatted.artwork_url h = Formatted.artwork_url j
    else Formatted.artwork_url j = VStr "/moafunk.png"
         ∧ Formatted.artwork_url h = VStr "./moafunk.png"
}.

(** ** Sample data

    The tracks of [src/tests/test_generate_relisten.py] and a few replies. *)

Definition test_track : dict :=
  {[ "id" := VInt 123;
     "title" := VStr "Test Track";
     "artwork_url" := VStr "https://example.com/artwork-large.jpg";
     "created_at" := VStr "2025-01-01T12:00:00Z";
     "duration" := VInt 180000;
     "permalink_url" := VStr "https://soundcloud.com/test";
     "stream_url" := VStr "https://soundcloud.com/stream";
     "description" := VStr (repeat_char 250 "A") ]}.

Definition test_record : Formatted.t :=
  {| Formatted.id := VInt 123;
     Formatted.title := VStr "Test Track";
     Formatted.artwork_url := VStr "https://example.com/artwork-t500x500.jpg";
     Formatted.created_at := VStr "2025-01-01T12:00:00Z";
     Formatted.duration := VInt 180000;
     Formatted.permalink_url := VStr "https://soundcloud.com/test";
     Formatted.stream_url := VStr "https://soundcloud.com/stream";
     Formatted.description := VStr (repeat_char 200 "A" +:+ "...") |}.

(** A track of the listing whose [stream_url] is an explicit null. *)
Definition null_stream_track : dict :=
  {[ "id" := VInt 456;
     "title" := VStr "No Artwork Track";
     "artwork_url" := VNone;
     "created_at" := VStr "2025-01-01T12:00:00Z";
     "duration" := VInt 120000;
     "permalink_url" := VStr "https://soundcloud.com/test2";
     "stream_url" := VNone ]}.

(** A track whose description is 201 ampersands. *)
Definition ampersand_track : dict :=
  {[ "id" := VInt 123;
     "title" := VStr "Test Track";
     "artwork_url" := VStr "https://example.com/artwork-large.jpg";
     "created_at" := VStr "2025-01-01T12:00:00Z";
     "duration" := VInt 180000;
     "permalink_url" := VStr "https://soundcloud.com/test";
     "description" := VStr (repeat_char 201 "&") ]}.

Definition public_track : dict :=
  {[ "id" := VInt 1; "sharing" := VStr "public"; "streamable" := VBool false ]}.
Definition private_track : dict :=
  {[ "id" := VInt 2; "sharing" := VStr "private" ]}.

Definition token_reply (token : value) : response :=
  {| status_code := 200; text := "{...}";
     body := Some (DocObject {[ "access_token" := token ]}) |}.

Definition denied (text : string) : response :=
  {| status_code := 401; text := text; body := None |}.

Definition error_reply (status : Z) : response :=
  {| status_code := status; text := "error"; body := None |}.

Definition listing_reply (tracks : list dict) : response :=
  {| status_code := 200; text := "[...]"; body := Some (DocArray tracks) |}.

Definition user_reply (user : dict) : response :=
  {| status_code := 200; text := "{...}"; body := Some (DocObject user) |}.

(** The request that [get_access_token] posts. *)
Definition token_request (token_url client_id client_secret : string)
  : request :=
  {| req_method := POST;
     req_url := token_url;
     req_headers :=
       [("Content-Type", "application/x-www-form-urlencoded");
        ("Authorization",
         "Basic " +:+ b64encode (client_id +:+ ":" +:+ client_secret))];
     req_data := [("grant_type", "client_credentials")] |}.

(** ** [main] *)

(** [main] of the JSON-file script from its first print to the call of
    [format_track_data]: the command line is parsed before, the list is
    written to the output file after. *)
Definition json_file_main (client_id client_secret username : string)
  : io (list Formatted.t) :=
  print ("Fetching tracks from SoundCloud user: " +:+ username);;
  tracks ← JsonFile.fetch_soundcloud_tracks client_id client_secret username;
  match tracks with
  | [] =>
      print "No tracks found or API error occurred";;
      raise (Exception "No tracks found or API error occurred")
  | _ :: _ => lift (JsonFile.format_track_data tracks)
  end.

(** [main] of the page script, likewise. Its first f-string has doubled
    braces and prints them as text. *)
Definition html_page_main (client_id client_secret username : string)
  : io (list Formatted.t) :=
  print "Fetching tracks from SoundCloud user: {args.username}";;
  tracks ← HtmlPage.fetch_soundcloud_tracks client_id client_secret username;
  match tracks with
  | [] =>
      print "No tracks found or API error occurred";;
      raise (Exception "No tracks found or API error occurred")
  | _ :: _ => lift (HtmlPage.format_track_data tracks)
  end.

Definition main (tg : target) : string → string → string → io (list Formatted.t) :=
  match tg with
  | JsonTarget => json_file_main
  | HtmlTarget => html_page_main
  end.

Definition token_url (tg : target) : string :=
  match tg with
  | JsonTarget => "https://secure.soundcloud.com/oauth/token"
  | HtmlTarget => "https://api.soundcloud.com/oauth2/token"
  end.

(** ** The page's script *)

(** [s.padStart(n, c)] for a one-character [c] and a text [s] of digits *)
Definition padStart (s : string) (n : nat) (c : ascii) : string :=
  repeat_char (n - String.length s) c +:+ s.

(** The integers that a JavaScript number holds exactly and the script
    can get as a duration: from 0 up to, not including, 2^53. *)
Definition safe_duration (ms : Z) : bool := (0 <=? ms) && (ms <? 2 ^ 53).

(** [formatDuration(ms)] of the script that [generate_html] puts in the
    page, for a safe duration; [None] stands for every other argument,
    which this model does not cover. On the safe durations the quotients
    of the script's double arithmetic lie further from the next integer
    than a rounding can move them, so [Math.floor] of them is [Z.div],
    [%] is [Z.rem], and both numbers print in decimal. *)
Definition formatDuration (ms : Z) : option string :=
  if safe_duration ms then
    let minutes := ms `div` 60000 in
    let seconds := (ms `rem` 60000) `div` 1000 in
    Some (pretty minutes +:+ ":" +:+ padStart (pretty seconds) 2 "0")
  else None.

(** More sample tracks. *)

Definition streamable_track : dict :=
  {[ "id" := VInt 3; "sharing" := VStr "private"; "streamable" := VBool true ]}.

Definition short_track : dict :=
  {[ "id" := VInt 789;
     "title" := VStr "Rock & Roll <live>";
     "artwork_url" := VStr "https://example.com/art.jpg";
     "created_at" := VStr "2025-01-01T12:00:00Z";
     "duration" := VInt 60000;
     "permalink_url" := VStr "https://soundcloud.com/test3";
     "description" := VStr "Live set" ]}.

Definition bare_track : dict := {[ "id" := VInt 1 ]}.

Definition untitled_track : dict :=
  {[ "id" := VInt 5;
     "title" := VNone;
     "created_at" := VStr "2025-01-01T12:00:00Z";
     "duration" := VInt 60000;
     "permalink_url" := VStr "https://soundcloud.com/test5" ]}.

Definition numbered_track : dict :=
  {[ "id" := VInt 6;
     "title" := VStr "Numbers";
     "created_at" := VStr "2025-01-01T12:00:00Z";
     "duration" := VInt 60000;
     "permalink_url" := VStr "https://soundcloud.com/test6";
     "description" := VInt 5 ]}.

(** * Properties *)

(** ** Strings *)

Section Strings.

Implicit Types s p x y : string.

Lemma app_nil_l s : "" +:+ s = s.
Proof. reflexivity. Qed.

Lemma app_cons c x s : String c x +:+ s = String c (x +:+ s).
Proof. reflexivity. Qed.

Lemma app_assoc_str x y s : (x +:+ y) +:+ s = x +:+ (y +:+ s).
Proof.
  induction x as [|c x IH]; [done|]. by rewrite !app_cons, IH.
Qed.

Lemma app_empty_r s : s +:+ "" = s.
Proof. induction s as [|c s IH]; [done|]. by rewrite app_cons, IH. Qed.

Lemma app_length_str x y :
  String.length (x +:+ y) = (String.length x + String.length y)%nat.
Proof.
  induction x as [|c x IH]; [done|]. rewrite app_cons. simpl. by rewrite IH.
Qed.

Lemma eqb_str_true s p : String.eqb s p = true ↔ s = p.
Proof. apply String.eqb_eq. Qed.

Lemma startswith_spec s p : startswith s p = true ↔ ∃ r, s = p +:+ r.
Proof.
  revert s; induction p as [|a p IH]; intros s; simpl.
  - split; [eauto | done].
  - destruct s as [|c s]; [split; [done | by intros [r Hr]]|].
    rewrite andb_true_iff, IH. split.
    + intros [Hc [r ->]]. apply Ascii.eqb_eq in Hc as ->. eauto.
    + intros [r Hr]. injection Hr as -> ->. rewrite Ascii.eqb_refl. eauto.
Qed.

Lemma endswith_spec s p : endswith s p = true ↔ ∃ x, s = x +:+ p.
Proof.
  induction s as [|c s IH]; cbn [endswith].
  - rewrite orb_false_r, eqb_str_true. split.
    + intros <-. by exists "".
    + intros [[|d x] Hx]; [by rewrite app_nil_l in Hx | done].
  - rewrite orb_true_iff, eqb_str_true, IH. split.
    + intros [<- | [x ->]]; [by exists "" | by exists (String c x)].
    + intros [[|d x] Hx].
      * by left.
      * right. rewrite app_cons in Hx. injection Hx as -> ->. eauto.
Qed.

Lemma endswith_app x p : endswith (x +:+ p) p = true.
Proof. apply endswith_spec. eauto. Qed.

Lemma str_len_app x y : str_len (x +:+ y) = (str_len x + str_len y)%nat.
Proof.
  induction x as [|c x IH]; [done|]. rewrite app_cons. cbn [str_len].
  destruct (is_continuation c); by rewrite IH.
Qed.

Lemma str_take_len n s : str_len (str_take n s) = (n `min` str_len s)%nat.
Proof.
  revert n; induction s as [|c s IH]; intros n; cbn [str_take str_len].
  - by destruct n.
  - destruct (is_continuation c) eqn:Hc; cbn [str_len].
    + by rewrite Hc, IH.
    + destruct n as [|n]; [done|]. cbn [str_len]. by rewrite Hc, IH.
Qed.

Lemma str_take_all n s : (str_len s ≤ n)%nat → str_take n s = s.
Proof.
  revert n; induction s as [|c s IH]; intros n; cbn [str_take str_len];
    [done|].
  destruct (is_continuation c).
  - intros Hn. by rewrite IH.
  - destruct n as [|n]; [lia|]. intros Hn. rewrite IH; [done | lia].
Qed.

Lemma dash_free_cons c s :
  dash_free (String c s) = true → c ≠ "-"%char ∧ dash_free s = true.
Proof.
  unfold dash_free; simpl. rewrite negb_true_iff, orb_false_iff.
  intros [Hc Hs]. split; [|by rewrite Hs].
  intros ->. by destruct s.
Qed.

(** A dash-free pattern that matches in front of a dash ends before it. *)
Lemma startswith_before_dash x q p :
  dash_free p = true →
  startswith (x +:+ String "-" q) p = true →
  (String.length p ≤ String.length x)%nat.
Proof.
  revert p; induction x as [|d x IH]; intros [|a p] Hp Hs; simpl in *;
    try lia.
  - apply dash_free_cons in Hp as [Ha _].
    apply andb_true_iff in Hs as [->%Ascii.eqb_eq _]. done.
  - apply dash_free_cons in Hp as [_ Hp].
    apply andb_true_iff in Hs as [_ Hs].
    specialize (IH p Hp Hs). lia.
Qed.

(** Replacing a pattern [-p] in a string that ends in [-q] leaves the
    scan, when it reaches that last dash, at the start of [-q]: no earlier
    occurrence reaches into it. *)
Lemma replace_from_tail p new q x k :
  dash_free p = true →
  (k ≤ String.length x)%nat →
  ∃ y, replace_from (String "-" p) new k (x +:+ String "-" q)
       = y +:+ replace_from (String "-" p) new 0 (String "-" q).
Proof.
  intros Hp. revert k; induction x as [|c x IH]; intros k Hk.
  - assert (k = 0%nat) as -> by (simpl in Hk; lia). by exists "".
  - destruct k as [|k].
    + change (replace_from (String "-" p) new 0 (String c x +:+ String "-" q))
        with (if startswith (String c (x +:+ String "-" q)) (String "-" p)
              then new +:+ replace_from (String "-" p) new
                             (String.length (String "-" p) - 1)
                             (x +:+ String "-" q)
              else String c (replace_from (String "-" p) new 0
                               (x +:+ String "-" q))).
      destruct (startswith _ _) eqn:Hs.
      * simpl in Hs. apply andb_true_iff in Hs as [_ Hs].
        pose proof (startswith_before_dash _ _ _ Hp Hs) as Hlen.
        destruct (IH (String.length (String "-" p) - 1)%nat) as [y Hy];
          [simpl; lia|].
        exists (new +:+ y). by rewrite Hy, app_assoc_str.
      * destruct (IH 0%nat) as [y Hy]; [lia|].
        exists (String c y). by rewrite Hy.
    + simpl in Hk. destruct (IH k) as [y Hy]; [lia|]. by exists y.
Qed.

Lemma replace_tail p new q x :
  dash_free p = true →
  ∃ y, replace (x +:+ String "-" q) (String "-" p) new
       = y +:+ replace (String "-" q) (String "-" p) new.
Proof. intros Hp. apply replace_from_tail; [done | lia]. Qed.

Lemma replace_keeps_suffix p new q r x :
  dash_free p = true →
  replace (String "-" q) (String "-" p) new = r →
  ∃ y, replace (x +:+ String "-" q) (String "-" p) new = y +:+ r.
Proof. intros Hp <-. by apply replace_tail. Qed.

(** One rewrite of a string whose suffix after the last dash is known. *)
Ltac replace_pass :=
  lazymatch goal with
  | |- context [replace (?x +:+ String "-" ?q) (String "-" ?p) ?new] =>
      let r := eval vm_compute in (replace (String "-" q) (String "-" p) new) in
      destruct (replace_keeps_suffix p new q r x eq_refl eq_refl) as [? ->]
  end.

(** A string that ends in one of the three low-resolution suffixes ends
    in the high-resolution one after the three rewrites. *)
Lemma upgrade_artwork_suffix s :
  endswith s "-large.jpg" = true ∨ endswith s "-crop.jpg" = true
  ∨ endswith s "-t300x300.jpg" = true →
  endswith (upgrade_artwork s) "-t500x500.jpg" = true.
Proof.
  unfold upgrade_artwork.
  intros [[x ->]%endswith_spec | [[x ->]%endswith_spec | [x ->]%endswith_spec]].
  all: do 3 replace_pass; apply endswith_app.
Qed.

Lemma replace_absent s c old new :
  contains s (String c old) = false → replace s (String c old) new = s.
Proof.
  unfold replace. induction s as [|d s IH]; [done|].
  cbn [contains replace_from]. intros [Hs Hc]%orb_false_iff.
  rewrite Hs. by rewrite IH.
Qed.

(** Replacing a one-character pattern works character by character. *)
Lemma replace_char_app c new x y :
  replace (x +:+ y) (String c "") new
  = replace x (String c "") new +:+ replace y (String c "") new.
Proof.
  unfold replace. induction x as [|d x IH]; [done|].
  rewrite app_cons. cbn [replace_from startswith String.length Nat.sub].
  rewrite IH. destruct (Ascii.eqb c d && true); [|done].
  by rewrite app_assoc_str.
Qed.

Lemma escape_app x y : escape (x +:+ y) = escape x +:+ escape y.
Proof. unfold escape, dquote. by rewrite !replace_char_app. Qed.

Lemma escape_char_len c :
  (str_len (String c "") ≤ str_len (escape (String c ""))
   ≤ 6 * str_len (String c ""))%nat.
Proof. destruct c as [[] [] [] [] [] [] [] []]; vm_compute; lia. Qed.

Lemma escape_len s :
  (str_len s ≤ str_len (escape s) ≤ 6 * str_len s)%nat.
Proof.
  induction s as [|c s IH]; [vm_compute; lia|].
  change (String c s) with (String c "" +:+ s).
  rewrite escape_app, !str_len_app.
  pose proof (escape_char_len c). lia.
Qed.

Lemma escape_dots x : escape (x +:+ "...") = escape x +:+ "...".
Proof. by rewrite escape_app. Qed.

End Strings.

(** ** The normalizer *)

Section Normalizer.

Implicit Types (track : dict) (ft : Formatted.t) (tg : target).

Lemma replace_from_nonempty old new c s :
  new ≠ "" → replace (String c s) old new ≠ "".
Proof.
  intros Hnew. destruct old as [|a old]; cbn [replace interleave replace_from].
  - destruct (is_continuation c); [done|].
    destruct new; [done|]. by rewrite app_cons.
  - destruct (startswith _ _); [|done].
    destruct new; [done|]. by rewrite app_cons.
Qed.

Lemma upgrade_artwork_truthy s :
  truthy (VStr s) = true → truthy (VStr (upgrade_artwork s)) = true.
Proof.
  unfold truthy. rewrite !negb_true_iff. intros Hs.
  destruct s as [|c s]; [done|].
  apply String.eqb_neq. unfold upgrade_artwork.
  pose proof (replace_from_nonempty "-large.jpg" "-t500x500.jpg" c s) as H1.
  destruct (replace (String c s) _ _) as [|c1 s1]; [by destruct H1|].
  pose proof (replace_from_nonempty "-crop.jpg" "-t500x500.jpg" c1 s1) as H2.
  destruct (replace (String c1 s1) _ _) as [|c2 s2]; [by destruct H2|].
  by apply replace_from_nonempty.
Qed.

Lemma result_bind_ok {A B} (f : A → result B) (m : result A) b :
  m ≫= f = Ok b ↔ ∃ a, m = Ok a ∧ f a = Ok b.
Proof.
  destruct m as [a|e]; simpl; split; eauto.
  - by intros (a' & [= <-] & ?).
  - done.
  - by intros (a' & ? & ?).
Qed.

Lemma getitem_ok (d : dict) k v : getitem d k = Ok v ↔ d !! k = Some v.
Proof. unfold getitem. destruct (d !! k); split; congruence. Qed.

Lemma artwork_step_spec tg track out :
  (∃ a, artwork_step (placeholder tg) track = Ok a
        ∧ py_or a (VStr (placeholder tg)) = out) ↔
    if truthy (get track "artwork_url")
    then ∃ s, track !! "artwork_url" = Some (VStr s)
              ∧ out = VStr (upgrade_artwork s)
    else out = VStr (placeholder tg).
Proof.
  unfold artwork_step, get, get_default.
  destruct (track !! "artwork_url") as [[|[]|n|s]|]; simpl.
  - split; [by intros (a & [= <-] & <-) | intros ->; eauto].
  - split; [by intros (a & [=] & _) | by intros (s & [=] & _)].
  - split; [by intros (a & [= <-] & <-) | intros ->; eauto].
  - unfold py_or. destruct (n =? 0) eqn:Hn; simpl.
    + split; [intros (a & [= <-] & <-); simpl; by rewrite Hn|].
      intros ->. eexists; split; [done|]. simpl. by rewrite Hn.
    + split; [by intros (a & [=] & _) | by intros (s & [=] & _)].
  - destruct (String.eqb s "") eqn:Hs; simpl.
    { unfold py_or. split; [intros (a & [= <-] & <-); simpl; by rewrite Hs|].
      intros ->. eexists; split; [done|]. simpl. by rewrite Hs. }
    assert (truthy (VStr s) = true) as Ht by (simpl; by rewrite Hs).
    unfold py_ne; simpl.
    destruct (String.eqb s (placeholder tg)) eqn:Hp; simpl.
    + apply String.eqb_eq in Hp as ->.
      assert (upgrade_artwork (placeholder tg) = placeholder tg) as Hup
        by (by destruct tg).
      unfold py_or. split.
      * intros (a & [= <-] & <-). eexists; split; [done|]. by rewrite Ht, Hup.
      * intros (s & [= <-] & ->). rewrite Hup.
        eexists; split; [done|]. by rewrite Ht.
    + change (replace_from "-t300x300.jpg" _ 0 _) with (upgrade_artwork s).
      unfold py_or. split.
      * intros (a & [= <-] & <-). eexists; split; [done|].
        by rewrite upgrade_artwork_truthy.
      * intros (s' & [= <-] & ->). eexists; split; [done|].
        by rewrite upgrade_artwork_truthy.
  - unfold py_or. destruct tg; simpl.
    all: split; [by intros (a & [= <-] & <-) | intros ->; eauto].
Qed.

Lemma description_step_ok track d :
  description_step track = Ok d ↔
    if truthy (get track "description")
    then ∃ s, track !! "description" = Some (VStr s)
              ∧ d = VStr (str_take 200 s +:+ "...")
    else d = VStr "".
Proof.
  unfold description_step, get, get_default, mret, result_ret.
  destruct (track !! "description") as [[|[]|n|s]|]; simpl;
    try (split; congruence).
  - split; [done|]. by intros (s & [=] & _).
  - destruct (n =? 0); simpl; [split; congruence|].
    split; [done|]. by intros (s & [=] & _).
  - destruct (String.eqb s ""); simpl; [split; congruence|].
    split.
    + intros [= <-]. eauto.
    + by intros (s' & [= <-] & ->).
Qed.

Lemma format_track_loop_body tg track :
  format_track tg track = loop_body tg track.
Proof. by destruct tg. Qed.

Lemma format_track_normalized tg track ft :
  format_track tg track = Ok ft ↔ normalized tg track ft.
Proof.
  rewrite format_track_loop_body. unfold loop_body. split.
  - intros (a & Ha & (vid & Hid%getitem_ok & (vt & Ht%getitem_ok
      & (vt' & Ht' & (vc & Hc%getitem_ok
      & (vd & Hd%getitem_ok & (vp & Hp%getitem_ok & (d & Hds & (d' & Hd' & [= <-])
      %result_bind_ok)%result_bind_ok)%result_bind_ok)%result_bind_ok)
      %result_bind_ok)%result_bind_ok)%result_bind_ok)%result_bind_ok)
      %result_bind_ok.
    split; simpl; eauto.
    + apply (artwork_step_spec tg). eauto.
    + apply description_step_ok in Hds. destruct (truthy _).
      * destruct Hds as (s & ? & ->). eauto.
      * subst d. destruct tg; simpl in Hd'; by injection Hd'.
  - intros [Hid (vt & Ht & Ht') Hc Hd Hp Hs Ha Hds].
    apply artwork_step_spec in Ha as (a & Ha & Hor).
    rewrite Ha; simpl. rewrite (proj2 (getitem_ok _ _ _) Hid); simpl.
    rewrite (proj2 (getitem_ok _ _ _) Ht); simpl. rewrite Ht'; simpl.
    rewrite (proj2 (getitem_ok _ _ _) Hc); simpl.
    rewrite (proj2 (getitem_ok _ _ _) Hd); simpl.
    rewrite (proj2 (getitem_ok _ _ _) Hp); simpl.
    assert (description_step track ≫= out_text tg
            = Ok (Formatted.description ft)) as Hdesc.
    { destruct (truthy (get track "description")) eqn:Htr.
      - destruct Hds as (s & Hs' & Hout).
        rewrite (proj2 (description_step_ok track
                          (VStr (str_take 200 s +:+ "...")))); [done|].
        rewrite Htr. eauto.
      - rewrite (proj2 (description_step_ok track (VStr ""))); [|by rewrite Htr].
        rewrite Hds. by destruct tg. }
    destruct (description_step track) as [d|]; [|done]. simpl in Hdesc.
    simpl. rewrite Hdesc. simpl. destruct ft; simpl in *. by subst.
Qed.

Lemma format_track_data_eq tg tracks :
  format_track_data tg tracks = mapM (format_track tg) tracks.
Proof. by destruct tg. Qed.

Lemma mapM_ok_Forall2 {A B} (f : A → result B) l out :
  mapM f l = Ok out ↔ Forall2 (λ x y, f x = Ok y) l out.
Proof.
  revert out; induction l as [|x l IH]; intros out; cbn [mapM].
  - split; [intros [= <-]; constructor | by inversion 1].
  - rewrite result_bind_ok. split.
    + intros (y & Hy & (k & Hk%IH & [= <-])%result_bind_ok). by constructor.
    + inversion 1 as [|? y ? k Hy Hk]; subst. exists y. split; [done|].
      apply result_bind_ok. exists k. by rewrite IH.
Qed.

Lemma mapM_total {A B} (f : A → result B) l :
  Forall (λ x, ∃ y, f x = Ok y) l → ∃ out, mapM f l = Ok out.
Proof.
  induction 1 as [|x l [y Hy] _ [out IH]]; [by exists []|].
  exists (y :: out). apply mapM_ok_Forall2. constructor; [done|].
  by apply mapM_ok_Forall2.
Qed.

Lemma format_track_data_normalized tg tracks out :
  format_track_data tg tracks = Ok out ↔ Forall2 (normalized tg) tracks out.
Proof.
  rewrite format_track_data_eq, mapM_ok_Forall2.
  split; intros H; eapply Forall2_impl; try exact H;
    intros track ft; apply format_track_normalized.
Qed.

(** Every record of a returned list is the normalization of the raw track
    at the same position. *)
Lemma format_track_data_lookup tg tracks out i track ft :
  format_track_data tg tracks = Ok out →
  tracks !! i = Some track → out !! i = Some ft →
  normalized tg track ft.
Proof.
  intros Hf%format_track_data_normalized Ht Ho.
  by eapply Forall2_lookup_lr.
Qed.

Lemma format_track_data_length tg tracks out :
  format_track_data tg tracks = Ok out → length out = length tracks.
Proof.
  intros Hf%format_track_data_normalized. symmetry. by eapply Forall2_length.
Qed.

End Normalizer.

Section NormalizerClaims.
Implicit Types (track : dict) (ft : Formatted.t) (tg : target).

Lemma out_text_str tg s : ∃ s', out_text tg (VStr s) = Ok (VStr s').
Proof. destruct tg; simpl; eauto. Qed.

Lemma well_formed_normalized tg track :
  well_formed track → ∃ ft, normalized tg track ft.
Proof.
  intros [[vid Hid] [t Ht] [vc Hc] [vd Hd] [vp Hp] Ha Hds].
  destruct (out_text_str tg t) as [t' Ht'].
  assert (∃ a, if truthy (get track "artwork_url")
               then ∃ s, track !! "artwork_url" = Some (VStr s)
                         ∧ a = VStr (upgrade_artwork s)
               else a = VStr (placeholder tg)) as [a Ha'].
  { unfold get, get_default.
    destruct (track !! "artwork_url") as [v|] eqn:Hv; simpl; [|eauto].
    destruct (Ha v eq_refl) as [-> | [s ->]]; simpl; [eauto|].
    destruct (negb _); eauto. }
  assert (∃ d, if truthy (get track "description")
               then ∃ s, track !! "description" = Some (VStr s)
                         ∧ out_text tg (VStr (str_take 200 s +:+ "...")) = Ok d
               else d = VStr "") as [d Hd'].
  { unfold get, get_default.
    destruct (track !! "description") as [v|] eqn:Hv; simpl; [|eauto].
    destruct (Hds v eq_refl) as [-> | [s ->]]; simpl; [eauto|].
    destruct (negb _); [|eauto].
    destruct (out_text_str tg (str_take 200 s +:+ "...")) as [s' Hs']. eauto. }
  exists {| Formatted.id := vid; Formatted.title := VStr t';
            Formatted.artwork_url := a; Formatted.created_at := vc;
            Formatted.duration := vd; Formatted.permalink_url := vp;
            Formatted.stream_url := get_default track "stream_url" (VStr "#");
            Formatted.description := d |}.
  split; simpl; eauto.
Qed.

(** The normalizer returns on every listing of well-formed tracks. *)
Lemma format_track_data_total tg tracks :
  Forall well_formed tracks → ∃ out, format_track_data tg tracks = Ok out.
Proof.
  intros Hwf. rewrite format_track_data_eq. apply mapM_total.
  eapply Forall_impl; [exact Hwf|]. intros track [ft Hft]%(well_formed_normalized tg).
  exists ft. by apply format_track_normalized.
Qed.

(** The artwork address of a normalized record is never null. *)
Lemma artwork_url_not_null tg track ft :
  normalized tg track ft → Formatted.artwork_url ft ≠ VNone.
Proof.
  intros [_ _ _ _ _ _ Ha _]. destruct (truthy _).
  - destruct Ha as (s & _ & ->). done.
  - by rewrite Ha.
Qed.

(** The stream address of a normalized record is null exactly when the
    raw track holds an explicit null. *)
Lemma stream_url_null_iff tg track ft :
  normalized tg track ft →
  Formatted.stream_url ft = VNone ↔ track !! "stream_url" = Some VNone.
Proof.
  intros [_ _ _ _ _ -> _ _]. unfold get_default.
  destruct (track !! "stream_url") as [v|]; simpl; [|done].
  split; congruence.
Qed.

(** C1. The record that either script builds for a well-formed track with
    a null [stream_url] has a null [stream_url]; the null artwork of the
    same track is replaced by the placeholder. *)
Theorem C1_null_stream_url_kept :
  ∀ tg, ∃ ft,
    format_track_data tg [null_stream_track] = Ok [ft]
    ∧ Formatted.stream_url ft = VNone
    ∧ Formatted.artwork_url ft = VStr (placeholder tg).
Proof. intros []; eexists; (split; [vm_compute; reflexivity | done]). Qed.

(** C2 (as amended). For a description of more than 200 characters the
    JSON file gets its first 200 characters followed by [...], 203
    characters in all; the page gets the HTML-escaping of that text, which
    still ends in [...] but is between 203 and 1203 characters long. An
    empty description stays empty for both targets. Characters are
    counted as [len] counts them, one per code point. *)
Theorem C2_description_truncated tg tracks out i track ft :
  format_track_data tg tracks = Ok out →
  tracks !! i = Some track →
  out !! i = Some ft →
  (∀ d, track !! "description" = Some (VStr d) →
        (200 < str_len d)%nat →
        ∃ s, Formatted.description ft = VStr s
             ∧ endswith s "..." = true
             ∧ match tg with
               | JsonTarget =>
                   s = str_take 200 d +:+ "..." ∧ str_len s = 203%nat
               | HtmlTarget =>
                   s = escape (str_take 200 d +:+ "...")
                   ∧ (203 ≤ str_len s ≤ 1203)%nat
               end)
  ∧ (track !! "description" = Some (VStr "") →
     Formatted.description ft = VStr "").
Proof.
  intros Hf Ht Ho.
  destruct (format_track_data_lookup _ _ _ _ _ _ Hf Ht Ho)
    as [_ _ _ _ _ _ _ Hd].
  unfold get, get_default in Hd. split.
  - intros d Hraw Hlen. rewrite Hraw in Hd. simpl in Hd.
    assert (String.eqb d "" = false) as Hne
      by (destruct d; [simpl in Hlen; lia | done]).
    rewrite Hne in Hd. destruct Hd as (s & Hs & Hout). injection Hs as <-.
    assert (str_len (str_take 200 d) = 200%nat) as Htake
      by (rewrite str_take_len; lia).
    set (head := str_take 200 d) in *. clearbody head.
    destruct tg; cbn [out_text html_escape] in Hout; injection Hout as <-.
    + exists (head +:+ "..."). split; [done|].
      split; [apply endswith_app|]. split; [done|].
      by rewrite str_len_app, Htake.
    + exists (escape (head +:+ "...")). split; [done|].
      rewrite escape_dots. split; [apply endswith_app|]. split; [done|].
      rewrite str_len_app. pose proof (escape_len head) as Hb.
      rewrite Htake in Hb. simpl (str_len "..."). lia.
  - intros Hraw. rewrite Hraw in Hd. done.
Qed.

(** C5. A non-empty artwork address leaves the normalizer after three
    successive [replace] passes, one per low-resolution suffix; when it
    ends in one of the three suffixes the result ends in [-t500x500.jpg],
    and when it contains none of them it is unchanged. *)
Theorem C5_artwork_upgraded tg tracks out i track ft s :
  format_track_data tg tracks = Ok out →
  tracks !! i = Some track →
  out !! i = Some ft →
  track !! "artwork_url" = Some (VStr s) →
  s ≠ "" →
  let s' := replace (replace (replace s "-large.jpg" "-t500x500.jpg")
                       "-crop.jpg" "-t500x500.jpg")
              "-t300x300.jpg" "-t500x500.jpg" in
  Formatted.artwork_url ft = VStr s'
  ∧ (endswith s "-large.jpg" = true ∨ endswith s "-crop.jpg" = true
     ∨ endswith s "-t300x300.jpg" = true →
     endswith s' "-t500x500.jpg" = true)
  ∧ (contains s "-large.jpg" = false → contains s "-crop.jpg" = false →
     contains s "-t300x300.jpg" = false → s' = s).
Proof.
  intros Hf Ht Ho Hraw Hs s'.
  destruct (format_track_data_lookup _ _ _ _ _ _ Hf Ht Ho)
    as [_ _ _ _ _ _ Ha _].
  unfold get, get_default in Ha. rewrite Hraw in Ha. simpl in Ha.
  apply String.eqb_neq in Hs. rewrite Hs in Ha.
  destruct Ha as (? & [= <-] & ->).
  split; [done|]. split; [apply upgrade_artwork_suffix|].
  intros H1 H2 H3. subst s'.
  by rewrite (replace_absent s _ _ _ H1), (replace_absent s _ _ _ H2),
    (replace_absent s _ _ _ H3).
Qed.

(** C10. Either normalizer returns on every listing of well-formed
    tracks, and whenever it returns, the list has the length and order of
    the listing and each record carries the raw track's [id],
    [created_at], [duration] and [permalink_url] unchanged. *)
Theorem C10_frame tg tracks :
  (Forall well_formed tracks → ∃ out, format_track_data tg tracks = Ok out)
  ∧ ∀ out, format_track_data tg tracks = Ok out →
      length out = length tracks
      ∧ ∀ i track, tracks !! i = Some track →
          ∃ ft, out !! i = Some ft
                ∧ track !! "id" = Some (Formatted.id ft)
                ∧ track !! "created_at" = Some (Formatted.created_at ft)
                ∧ track !! "duration" = Some (Formatted.duration ft)
                ∧ track !! "permalink_url"
                  = Some (Formatted.permalink_url ft).
Proof.
  split; [apply format_track_data_total|].
  intros out Hf. split; [by eapply format_track_data_length|].
  intros i track Ht.
  pose proof Hf as Hall%format_track_data_normalized.
  destruct (Forall2_lookup_l _ _ _ _ _ Hall Ht) as (ft & Ho & Hn).
  exists ft. by destruct Hn.
Qed.

Lemma normalized_agree track j h :
  normalized JsonTarget track j → normalized HtmlTarget track h →
  targets_agree track j h.
Proof.
  intros [Jid (vt & Jt & [= Jt']) Jc Jd Jp Js Ja Jds]
         [Hid (vt' & Ht & Ht') Hc Hd Hp Hs Ha Hds].
  split; try congruence.
  - assert (vt' = vt) as -> by congruence. by rewrite <- Jt'.
  - destruct (truthy (get track "description")).
    + destruct Jds as (s & Js1 & [= <-]), Hds as (s' & Hs1 & Hs2).
      assert (s' = s) as -> by congruence. done.
    + by rewrite Jds, Hds.
  - destruct (truthy (get track "artwork_url")); [|done].
    destruct Ja as (s & Ja1 & ->), Ha as (s' & Ha1 & ->). congruence.
Qed.

Lemma normalized_html_json track h :
  normalized HtmlTarget track h → ∃ j, normalized JsonTarget track j.
Proof.
  intros [Hid (vt & Ht & Ht') Hc Hd Hp Hs Ha Hds].
  exists {| Formatted.id := Formatted.id h;
            Formatted.title := vt;
            Formatted.artwork_url :=
              if truthy (get track "artwork_url")
              then Formatted.artwork_url h else VStr "/moafunk.png";
            Formatted.created_at := Formatted.created_at h;
            Formatted.duration := Formatted.duration h;
            Formatted.permalink_url := Formatted.permalink_url h;
            Formatted.stream_url := Formatted.stream_url h;
            Formatted.description :=
              match track !! "description" with
              | Some (VStr s) =>
                  if truthy (get track "description")
                  then VStr (str_take 200 s +:+ "...") else VStr ""
              | _ => VStr ""
              end |}.
  split; simpl; eauto.
  - by destruct (truthy (get track "artwork_url")).
  - destruct (truthy (get track "description")).
    + destruct Hds as (s & -> & _). eauto.
    + by destruct (track !! "description") as [[]|].
Qed.

Lemma normalized_json_html track j :
  normalized JsonTarget track j →
  (∃ s, track !! "title" = Some (VStr s)) →
  ∃ h, normalized HtmlTarget track h.
Proof.
  intros [Jid (vt & Jt & [= Jt']) Jc Jd Jp Js Ja Jds] [t Ht].
  exists {| Formatted.id := Formatted.id j;
            Formatted.title := VStr (escape t);
            Formatted.artwork_url :=
              if truthy (get track "artwork_url")
              then Formatted.artwork_url j else VStr "./moafunk.png";
            Formatted.created_at := Formatted.created_at j;
            Formatted.duration := Formatted.duration j;
            Formatted.permalink_url := Formatted.permalink_url j;
            Formatted.stream_url := Formatted.stream_url j;
            Formatted.description :=
              match Formatted.description j with
              | VStr s => VStr (escape s)
              | v => v
              end |}.
  split; simpl; eauto.
  - by destruct (truthy (get track "artwork_url")).
  - destruct (truthy (get track "description")).
    + destruct Jds as (s & Js1 & [= <-]). eauto.
    + by rewrite Jds.
Qed.

(** C4. Whenever the page script normalizes a listing, so does the
    JSON-file script, and record by record the two outputs differ in two
    places only: the page's [title] and [description] are the HTML-escaped
    ones of the JSON file, and a missing or falsy raw artwork becomes
    [/moafunk.png] in the JSON file and [./moafunk.png] in the page. The
    other fields, and any other artwork address, are equal. Conversely the
    page script normalizes every listing that the JSON-file script
    normalizes and whose titles are text. *)
Theorem C4_targets_agree tracks :
  (∀ hs, HtmlPage.format_track_data tracks = Ok hs →
     ∃ js, JsonFile.format_track_data tracks = Ok js
           ∧ length js = length hs
           ∧ ∀ i track j h,
               tracks !! i = Some track → js !! i = Some j →
               hs !! i = Some h → targets_agree track j h)
  ∧ (∀ js, JsonFile.format_track_data tracks = Ok js →
       Forall (λ track, ∃ s, track !! "title" = Some (VStr s)) tracks →
       ∃ hs, HtmlPage.format_track_data tracks = Ok hs).
Proof.
  split.
  - intros hs Hh. change (format_track_data HtmlTarget tracks = Ok hs) in Hh.
    assert (∃ js, format_track_data JsonTarget tracks = Ok js) as [js Hj].
    { rewrite format_track_data_eq. apply mapM_total.
      apply format_track_data_normalized in Hh.
      induction Hh as [|track h tracks hs Hn _ IH]; constructor; [|done].
      destruct (normalized_html_json _ _ Hn) as [j Hjn].
      exists j. by apply (format_track_normalized JsonTarget). }
    exists js. split; [done|]. split.
    + rewrite (format_track_data_length _ _ _ Hh).
      by rewrite (format_track_data_length _ _ _ Hj).
    + intros i track j h Ht Hji Hhi. apply normalized_agree.
      * by eapply format_track_data_lookup.
      * by eapply format_track_data_lookup.
  - intros js Hj Htitles. change (format_track_data JsonTarget tracks = Ok js) in Hj.
    change (∃ hs, format_track_data HtmlTarget tracks = Ok hs).
    rewrite format_track_data_eq. apply mapM_total.
    apply format_track_data_normalized in Hj.
    induction Hj as [|track j tracks js Hn _ IH]; [constructor|].
    inversion Htitles as [|? ? Htitle Hrest]; subst.
    constructor; [|by apply IH].
    destruct (normalized_json_html _ _ Hn Htitle) as [h Hhn].
    exists h. by apply (format_track_normalized HtmlTarget).
Qed.

End NormalizerClaims.

(** ** Runs of a script *)

Section Runs.

Context {A : Type} (server : request → response).
Implicit Types (p k : io A).

Lemma run_print line k :
  run server (Print line k) = (Printed line :: (run server k).1, (run server k).2).
Proof. simpl. by destruct (run server k). Qed.

Lemma run_send rq (k : response → io A) :
  run server (Send rq k)
  = (Sent rq :: (run server (k (server rq))).1, (run server (k (server rq))).2).
Proof. simpl. by destruct (run server (k (server rq))). Qed.

Lemma outcome_print line k : outcome server (Print line k) = outcome server k.
Proof. unfold outcome. by rewrite run_print. Qed.

Lemma outcome_send rq (k : response → io A) :
  outcome server (Send rq k) = outcome server (k (server rq)).
Proof. unfold outcome. by rewrite run_send. Qed.

Lemma requests_print line k : requests server (Print line k) = requests server k.
Proof. unfold requests. by rewrite run_print. Qed.

Lemma requests_send rq (k : response → io A) :
  requests server (Send rq k) = rq :: requests server (k (server rq)).
Proof. unfold requests. by rewrite run_send. Qed.

Lemma requests_ret (a : A) : requests server (Ret a) = [].
Proof. done. Qed.

Lemma requests_raise e : requests server (@Raise A e) = [].
Proof. done. Qed.

End Runs.

(** ** The filter stage *)

Section Filter.

Context (server : request → response).
Implicit Types (tracks : list dict) (track : dict).

(** The filter stage and the debug prints send nothing. *)
Lemma filter_tracks_requests tracks :
  requests server (Fetch.filter_tracks tracks) = [].
Proof.
  unfold Fetch.filter_tracks.
  destruct (List.filter Fetch.is_streamable tracks);
    [destruct (List.filter Fetch.is_public tracks)|]; done.
Qed.

Lemma filter_object_requests o :
  requests server (Fetch.filter_object o) = [].
Proof. unfold Fetch.filter_object. by destruct (decide _). Qed.

Lemma print_first_track_then {A} tracks (k : io A) :
  requests server (Fetch.print_first_track tracks ;; k) = requests server k
  ∧ outcome server (Fetch.print_first_track tracks ;; k) = outcome server k.
Proof.
  destruct tracks as [|first_track tracks]; [done|].
  cbn -[String.append py_str].
  by rewrite !requests_print, !outcome_print.
Qed.

Lemma is_public_spec track :
  Fetch.is_public track = bool_decide (track !! "sharing" = Some (VStr "public")).
Proof.
  unfold Fetch.is_public, get, get_default.
  destruct (track !! "sharing") as [[| | |s]|]; simpl; try done.
  destruct (String.eqb_spec s "public") as [->|Hne]; [done|].
  rewrite bool_decide_eq_false_2; [done | congruence].
Qed.

Lemma is_streamable_spec track :
  Fetch.is_streamable track = true
  ↔ ∃ v, track !! "streamable" = Some v ∧ truthy v = true.
Proof.
  unfold Fetch.is_streamable, get_default.
  destruct (track !! "streamable") as [v|]; simpl.
  - split; [eauto | by intros (? & [= <-] & ?)].
  - split; [done | by intros (? & [=] & _)].
Qed.

Lemma filter_nil {X} (f : X → bool) (l : list X) :
  (∀ x, x ∈ l → f x = false) → List.filter f l = [].
Proof.
  induction l as [|x l IH]; [done|]. intros H. simpl.
  rewrite (H x) by left. apply IH. intros y Hy. apply H. by right.
Qed.

Lemma filter_cons_in {X} (f : X → bool) (l : list X) x :
  x ∈ l → f x = true → ∃ y k, List.filter f l = y :: k.
Proof.
  intros Hx Hf. destruct (List.filter f l) as [|y k] eqn:Hl; [|eauto].
  assert (In x (List.filter f l)) as Hin
    by (apply filter_In; split; [by apply list_elem_of_In | done]).
  rewrite Hl in Hin. destruct Hin.
Qed.

End Filter.

Section FilterClaims.

Context (server : request → response).
Implicit Types (tracks : list dict) (track : dict).

(** C3. When no track of the listing has a truthy [streamable] and some
    track has [sharing == "public"], the filter stage returns the tracks
    with [sharing == "public"], in their order. *)
Theorem C3_public_fallback tracks :
  (∀ track v, track ∈ tracks → track !! "streamable" = Some v →
              truthy v = false) →
  (∃ track, track ∈ tracks ∧ track !! "sharing" = Some (VStr "public")) →
  outcome server (Fetch.filter_tracks tracks)
  = Ok (List.filter
          (λ track, bool_decide (track !! "sharing" = Some (VStr "public")))
          tracks).
Proof.
  intros Hnone (track & Hin & Hpub). unfold Fetch.filter_tracks.
  rewrite (filter_nil Fetch.is_streamable).
  2:{ intros t Ht. apply not_true_is_false.
      intros (v & Hv & Htr)%is_streamable_spec.
      by rewrite (Hnone t v Ht Hv) in Htr. }
  rewrite <- (filter_ext _ _ is_public_spec).
  destruct (filter_cons_in Fetch.is_public tracks track Hin) as (y & k & ->).
  { rewrite is_public_spec. by apply bool_decide_eq_true_2. }
  done.
Qed.

(** C8. When no track of the listing has a truthy [streamable] and none
    has [sharing == "public"], the filter stage returns the first ten
    tracks of the listing, all of them when there are at most ten. *)
Theorem C8_debug_fallback tracks :
  (∀ track v, track ∈ tracks → track !! "streamable" = Some v →
              truthy v = false) →
  (∀ track, track ∈ tracks → track !! "sharing" ≠ Some (VStr "public")) →
  outcome server (Fetch.filter_tracks tracks) = Ok (take 10 tracks)
  ∧ ((length tracks ≤ 10)%nat →
     outcome server (Fetch.filter_tracks tracks) = Ok tracks).
Proof.
  intros Hnone Hpriv.
  assert (outcome server (Fetch.filter_tracks tracks) = Ok (take 10 tracks))
    as Hout.
  { unfold Fetch.filter_tracks.
    rewrite (filter_nil Fetch.is_streamable).
    2:{ intros t Ht. apply not_true_is_false.
        intros (v & Hv & Htr)%is_streamable_spec.
        by rewrite (Hnone t v Ht Hv) in Htr. }
    rewrite (filter_nil Fetch.is_public).
    2:{ intros t Ht. rewrite is_public_spec.
        apply bool_decide_eq_false_2. by apply Hpriv. }
    done. }
  split; [done|]. intros Hlen. by rewrite Hout, firstn_all2.
Qed.

End FilterClaims.

(** ** Authentication, resolution and fetch *)

(** Unfold the script one layer, leaving texts and stages as they are. *)
Ltac script_step :=
  cbn -[pretty String.append str_take b64encode py_str requests outcome
        Fetch.print_first_track Fetch.filter_tracks Fetch.filter_object].

Tactic Notation "script_step" "in" hyp(H) :=
  cbn -[pretty String.append str_take b64encode py_str requests outcome
        Fetch.print_first_track Fetch.filter_tracks Fetch.filter_object] in H.

Section Pipeline.

Context (token_url client_id client_secret username : string).
Implicit Types (tok res trk reply : response) (o : dict).

Local Abbreviation get_access_token :=
  (Fetch.get_access_token token_url client_id client_secret).
Local Abbreviation fetch_soundcloud_tracks :=
  (Fetch.fetch_soundcloud_tracks token_url client_id client_secret username).

Lemma get_access_token_run server :
  let reply :=
    server {| req_method := POST; req_url := token_url;
              req_headers :=
                [("Content-Type", "application/x-www-form-urlencoded");
                 ("Authorization",
                  "Basic " +:+ b64encode (client_id +:+ ":" +:+ client_secret))];
              req_data := [("grant_type", "client_credentials")] |} in
  run server get_access_token
  = if negb (status_code reply =? 200) then
      ([Sent {| req_method := POST; req_url := token_url;
                req_headers :=
                  [("Content-Type", "application/x-www-form-urlencoded");
                   ("Authorization",
                    "Basic " +:+ b64encode (client_id +:+ ":" +:+ client_secret))];
                req_data := [("grant_type", "client_credentials")] |};
        Printed ("Failed to get access token: " +:+ pretty (status_code reply));
        Printed ("Response: " +:+ text reply)],
       Err (Exception
              ("Failed to get access token: " +:+ pretty (status_code reply))))
    else
      ([Sent {| req_method := POST; req_url := token_url;
                req_headers :=
                  [("Content-Type", "application/x-www-form-urlencoded");
                   ("Authorization",
                    "Basic " +:+ b64encode (client_id +:+ ":" +:+ client_secret))];
                req_data := [("grant_type", "client_credentials")] |}],
       reply ← json reply; doc_get reply "access_token").
Proof.
  intros reply. unfold Fetch.get_access_token.
  cbn -[pretty String.append b64encode]. fold reply.
  destruct (status_code reply =? 200); cbn -[pretty String.append b64encode];
    [|done].
  unfold json. destruct (body reply) as [[o|items]|]; done.
Qed.

Lemma after_listing_spec server trk :
  requests server (after_listing trk) = []
  ∧ (status_code trk ≠ 200 →
     outcome server (after_listing trk)
     = Err (Exception
              ("Failed to fetch tracks: " +:+ pretty (status_code trk))))
  ∧ (∀ tracks, status_code trk = 200 → body trk = Some (DocArray tracks) →
     outcome server (after_listing trk)
     = outcome server (Fetch.filter_tracks tracks)).
Proof.
  unfold after_listing. script_step.
  rewrite !requests_print, !outcome_print.
  destruct (Z.eqb_spec (status_code trk) 200) as [Heq|Hne];
    script_step.
  - unfold json.
    destruct (body trk) as [[o|tracks]|];
      script_step.
    + rewrite requests_print, filter_object_requests.
      split; [done|]. split; [done|]. by intros tracks _ [=].
    + rewrite requests_print, outcome_print.
      destruct (print_first_track_then server tracks
                  (Fetch.filter_tracks tracks)) as [-> ->].
      rewrite filter_tracks_requests.
      split; [done|]. split; [done|]. by intros ? _ [= <-].
    + split; [done|]. split; [done|]. by intros tracks _ [=].
  - split; [done|]. split; [done|]. by intros tracks ?.
Qed.

Lemma after_listing_requests server trk :
  requests server (after_listing trk) = [].
Proof. apply after_listing_spec. Qed.

Lemma api_token tok res trk url headers data :
  api tok res trk {| req_method := POST; req_url := url;
                     req_headers := headers; req_data := data |} = tok.
Proof. done. Qed.

Lemma api_resolve tok res trk rest headers :
  api tok res trk
    {| req_method := GET;
       req_url := "https://api.soundcloud.com/resolve?url=https://soundcloud.com/"
                  +:+ rest;
       req_headers := headers; req_data := [] |} = res.
Proof. done. Qed.

Lemma api_listing tok res trk rest headers :
  api tok res trk
    {| req_method := GET;
       req_url := "https://api.soundcloud.com/users/" +:+ rest;
       req_headers := headers; req_data := [] |} = trk.
Proof. done. Qed.

(** The run of the fetch once the token reply is an object: three
    requests, the third one for the listing of [account], and the outcome
    of the listing reply. *)
Lemma fetch_run tok res trk o account :
  status_code tok = 200 →
  body tok = Some (DocObject o) →
  (status_code res ≠ 200 ∧ account = username
   ∨ status_code res = 200
     ∧ ∃ o', body res = Some (DocObject o') ∧ account = py_str (get o' "id")) →
  let server := api tok res trk in
  let token := get o "access_token" in
  requests server fetch_soundcloud_tracks
  = [ {| req_method := POST; req_url := token_url;
         req_headers :=
           [("Content-Type", "application/x-www-form-urlencoded");
            ("Authorization",
             "Basic " +:+ b64encode (client_id +:+ ":" +:+ client_secret))];
         req_data := [("grant_type", "client_credentials")] |};
      {| req_method := GET;
         req_url :=
           if truthy token
           then "https://api.soundcloud.com/resolve?url=https://soundcloud.com/"
                +:+ username
           else "https://api.soundcloud.com/resolve?url=https://soundcloud.com/"
                +:+ username +:+ "&client_id=" +:+ client_id;
         req_headers :=
           if truthy token
           then [("Authorization", "OAuth " +:+ py_str token)] else [];
         req_data := [] |};
      {| req_method := GET;
         req_url :=
           if truthy token
           then "https://api.soundcloud.com/users/" +:+ account
                +:+ "/tracks?limit=50"
           else "https://api.soundcloud.com/users/" +:+ account
                +:+ "/tracks?client_id=" +:+ client_id +:+ "&limit=50";
         req_headers :=
           if truthy token
           then [("Authorization", "OAuth " +:+ py_str token)] else [];
         req_data := [] |} ]
  ∧ outcome server fetch_soundcloud_tracks
    = outcome server (after_listing trk).
Proof.
  intros Htok Hbody Hres server token. subst server.
  pose proof (after_listing_requests (api tok res trk) trk) as Htail.
  unfold after_listing in Htail |- *. script_step in Htail.
  rewrite !requests_print in Htail.
  unfold Fetch.fetch_soundcloud_tracks, Fetch.get_access_token.
  script_step.
  rewrite requests_print, requests_send, outcome_print, outcome_send.
  rewrite !api_token. script_step. rewrite !Htok. script_step.
  unfold json. rewrite !Hbody. script_step.
  rewrite requests_print, outcome_print. fold token.
  destruct (truthy token); script_step.
  all: rewrite requests_print, requests_send, outcome_print, outcome_send.
  all: rewrite !api_resolve; script_step.
  all: rewrite !requests_print, !outcome_print.
  all: destruct Hres as [[Hne ->] | (Heq & o' & Hb' & ->)].
  all: try (apply Z.eqb_neq in Hne; rewrite !Hne).
  all: try (rewrite !Heq, !Hb').
  all: script_step.
  all: rewrite !requests_print, !outcome_print, ?requests_send, ?outcome_send.
  all: rewrite !api_listing.
  all: script_step; rewrite !requests_print, !outcome_print.
  all: unfold json in Htail; rewrite Htail; split; [reflexivity|].
  all: script_step; by rewrite ?outcome_print.
Qed.

(** C6 (as amended). The authenticator raises
    [Exception("Failed to get access token: <status>")] whenever the
    status of the token reply is not 200: the exception names the status
    code and only it, the body of the reply is printed. On status 200 with
    a JSON object as body it returns the object's [access_token], or
    [None] when the object has none; so for JSON object bodies it raises
    exactly when the status is not 200. *)
Theorem C6_get_access_token reply :
  let server := λ _ : request, reply in
  let token := outcome server get_access_token in
  (status_code reply ≠ 200 →
   token = Err (Exception ("Failed to get access token: "
                           +:+ pretty (status_code reply)))
   ∧ Printed ("Response: " +:+ text reply) ∈ (run server get_access_token).1)
  ∧ (∀ o, status_code reply = 200 → body reply = Some (DocObject o) →
          token = Ok (default VNone (o !! "access_token")))
  ∧ (∀ o, body reply = Some (DocObject o) →
          (is_ok token = false ↔ status_code reply ≠ 200)).
Proof.
  intros server token. subst token. unfold outcome.
  rewrite get_access_token_run. subst server. cbv beta zeta.
  destruct (Z.eqb_spec (status_code reply) 200) as [Heq|Hne];
    cbn [negb fst snd].
  - split; [done|]. split.
    + intros o _ Hb. unfold json. by rewrite Hb.
    + intros o Hb. unfold json. rewrite Hb. by split.
  - split.
    + intros _. split; [done|]. set_solver.
    + split; [done|]. intros o _. by split.
Qed.

(** C7. With a token in hand, a resolve reply of any status other than
    200 does not stop the fetch: a third request follows, a GET of the
    listing address built from the raw username, and the outcome is that
    of the listing reply. The two other failures are not recovered: a
    token reply or a listing reply with a status other than 200 raises. *)
Theorem C7_resolve_failure_recovered tok res trk :
  let server := api tok res trk in
  (∀ o, status_code tok = 200 → body tok = Some (DocObject o) →
        status_code res ≠ 200 →
        (∃ rq1 rq2 rq3,
           requests server fetch_soundcloud_tracks = [rq1; rq2; rq3]
           ∧ req_method rq3 = GET
           ∧ req_url rq3
             = if truthy (get o "access_token")
               then "https://api.soundcloud.com/users/" +:+ username
                    +:+ "/tracks?limit=50"
               else "https://api.soundcloud.com/users/" +:+ username
                    +:+ "/tracks?client_id=" +:+ client_id +:+ "&limit=50")
        ∧ (∀ tracks, status_code trk = 200 →
                     body trk = Some (DocArray tracks) →
                     outcome server fetch_soundcloud_tracks
                     = outcome server (Fetch.filter_tracks tracks))
        ∧ (status_code trk ≠ 200 →
           outcome server fetch_soundcloud_tracks
           = Err (Exception ("Failed to fetch tracks: "
                             +:+ pretty (status_code trk)))))
  ∧ (status_code tok ≠ 200 →
     outcome server fetch_soundcloud_tracks
     = Err (Exception ("Failed to get access token: "
                       +:+ pretty (status_code tok)))).
Proof.
  intros server. split.
  - intros o Htok Hbody Hres.
    destruct (fetch_run tok res trk o username Htok Hbody) as [Hreq Hout];
      [by left|].
    destruct (after_listing_spec server trk) as (_ & Hfail & Hok).
    split; [|split].
    + eexists _, _, _. split; [exact Hreq|]. split; [done|].
      cbn [req_url]. done.
    + intros tracks Hs Hb. unfold server. rewrite Hout. by apply Hok.
    + intros Hs. unfold server. rewrite Hout. by apply Hfail.
  - intros Htok%Z.eqb_neq. subst server.
    unfold Fetch.fetch_soundcloud_tracks, Fetch.get_access_token.
    script_step. rewrite outcome_print, outcome_send, api_token.
    script_step. rewrite Htok. script_step. by rewrite !outcome_print.
Qed.

(** C9. When the resolve reply has status 200 and its JSON object has no
    [id], the listing request is made for the account [None]. *)
Theorem C9_missing_id tok res trk o o' :
  status_code tok = 200 → body tok = Some (DocObject o) →
  status_code res = 200 → body res = Some (DocObject o') →
  o' !! "id" = None →
  ∃ rq1 rq2 rq3,
    requests (api tok res trk) fetch_soundcloud_tracks = [rq1; rq2; rq3]
    ∧ req_method rq3 = GET
    ∧ req_url rq3
      = if truthy (get o "access_token")
        then "https://api.soundcloud.com/users/None/tracks?limit=50"
        else "https://api.soundcloud.com/users/None/tracks?client_id="
             +:+ client_id +:+ "&limit=50".
Proof.
  intros Htok Hbody Hres Hbody' Hid.
  destruct (fetch_run tok res trk o "None" Htok Hbody) as [Hreq _].
  { right. split; [done|]. exists o'. split; [done|].
    unfold get, get_default. by rewrite Hid. }
  eexists _, _, _. split; [exact Hreq|]. split; [done|].
  cbn [req_url]. by destruct (truthy _).
Qed.

End Pipeline.

(** ** The builtins and the repository's tests on sample data *)

Example replace_all_occurrences :
  replace "a-large.jpg/b-large.jpg" "-large.jpg" "-t500x500.jpg"
  = "a-t500x500.jpg/b-t500x500.jpg".
Proof. reflexivity. Qed.

Example replace_non_overlapping : replace "aaaaa" "aa" "b" = "bba".
Proof. reflexivity. Qed.

Example replace_empty_pattern : replace "abc" "" "-" = "-a-b-c-".
Proof. reflexivity. Qed.

Example replace_empty_pattern_umlaut : replace "häm" "" "-" = "-h-ä-m-".
Proof. reflexivity. Qed.

Example str_len_counts_characters :
  str_len "♫" = 1%nat ∧ str_len "Grüße ♫" = 7%nat
  ∧ str_len (repeat_char 250 "A") = 250%nat.
Proof. repeat split; vm_compute; reflexivity. Qed.

Example str_take_keeps_characters_whole :
  str_take 2 "ä♫ö" = "ä♫" ∧ str_take 0 "♫" = "" ∧ str_take 5 "ab" = "ab".
Proof. repeat split; reflexivity. Qed.

Example escape_markup :
  escape "<a href='x'>R&B</a>"
  = "&lt;a href=&#x27;x&#x27;&gt;R&amp;B&lt;/a&gt;".
Proof. reflexivity. Qed.

Example b64encode_credentials : b64encode "id:secret" = "aWQ6c2VjcmV0".
Proof. reflexivity. Qed.

Example b64encode_padding :
  b64encode "ab" = "YWI=" ∧ b64encode "a" = "YQ==".
Proof. split; reflexivity. Qed.

(** [test_format_track_data] *)
Example test_format_track_data :
  JsonFile.format_track_data [test_track] = Ok [test_record]
  ∧ contains "https://example.com/artwork-t500x500.jpg" "t500x500" = true
  ∧ (str_len (repeat_char 200 "A" +:+ "...") ≤ 203)%nat.
Proof. repeat split; vm_compute; (reflexivity || lia). Qed.

(** Descriptions beyond ASCII: a short one is kept whole, a long one is
    cut after 200 characters, not after 200 bytes. *)
Example description_beyond_ascii :
  ∃ short long,
    JsonFile.format_track_data
      [ <["description" := VStr "Grüße aus Köln ♫"]> short_track;
        <["description" := VStr (String.concat "" (replicate 201 "ä"))]>
          short_track ]
    = Ok [short; long]
    ∧ Formatted.description short = VStr "Grüße aus Köln ♫..."
    ∧ Formatted.description long
      = VStr (String.concat "" (replicate 200 "ä") +:+ "...").
Proof. eexists _, _. split; [vm_compute; reflexivity | done]. Qed.

(** [test_format_track_data_with_missing_artwork] *)
Example test_format_track_data_with_missing_artwork :
  ∃ ft,
    JsonFile.format_track_data
      [ {[ "id" := VInt 456;
           "title" := VStr "No Artwork Track";
           "artwork_url" := VNone;
           "created_at" := VStr "2025-01-01T12:00:00Z";
           "duration" := VInt 120000;
           "permalink_url" := VStr "https://soundcloud.com/test2" ]} ]
    = Ok [ft]
    ∧ Formatted.artwork_url ft = VStr "/moafunk.png"
    ∧ Formatted.stream_url ft = VStr "#".
Proof. eexists. split; [vm_compute; reflexivity | done]. Qed.

(** [test_format_track_data_with_no_description] *)
Example test_format_track_data_with_no_description :
  ∃ ft,
    JsonFile.format_track_data
      [ {[ "id" := VInt 789;
           "title" := VStr "No Description Track";
           "artwork_url" := VStr "https://example.com/art.jpg";
           "created_at" := VStr "2025-01-01T12:00:00Z";
           "duration" := VInt 60000;
           "permalink_url" := VStr "https://soundcloud.com/test3";
           "description" := VStr "" ]} ]
    = Ok [ft]
    ∧ Formatted.description ft = VStr ""
    ∧ Formatted.artwork_url ft = VStr "https://example.com/art.jpg".
Proof. eexists. split; [vm_compute; reflexivity | done]. Qed.

(** A whole run: the token is granted, the user does not resolve, the
    listing holds one private and one public track. *)
Example fetch_with_unresolved_user :
  outcome (api (token_reply (VStr "abc")) (error_reply 404)
             (listing_reply [private_track; public_track]))
    (JsonFile.fetch_soundcloud_tracks "id" "secret" "radio-moafunk")
  = Ok [public_track].
Proof. vm_compute. reflexivity. Qed.

(** ** The claims on sample data *)

Lemma C2_description_truncated_witness :
  format_track_data HtmlTarget [test_track] = Ok [test_record]
  ∧ ∃ s, Formatted.description (test_record) = VStr s
         ∧ endswith s "..." = true.
Proof.
  split; [vm_compute; reflexivity|].
  destruct (C2_description_truncated HtmlTarget [test_track]
              [test_record] 0 test_track (test_record))
    as [H _]; [vm_compute; reflexivity | reflexivity | reflexivity|].
  destruct (H (repeat_char 250 "A")) as (s & Hs & He & _);
    [vm_compute; reflexivity | vm_compute; lia|].
  exists s. by split.
Defined.

(** C2, refuted as stated: the page's description of a track whose
    description is 201 ampersands has 1003 characters. *)
Lemma C2_html_description_overlong :
  ampersand_track !! "description" = Some (VStr (repeat_char 201 "&"))
  ∧ str_len (repeat_char 201 "&") = 201%nat
  ∧ ∃ ft s, format_track_data HtmlTarget [ampersand_track] = Ok [ft]
            ∧ Formatted.description ft = VStr s
            ∧ str_len s = 1003%nat
            ∧ ¬ (str_len s ≤ 203)%nat.
Proof.
  split; [vm_compute; reflexivity|]. split; [vm_compute; reflexivity|].
  eexists _, _. split; [vm_compute; reflexivity|].
  split; [reflexivity|]. split; [vm_compute; reflexivity | vm_compute; lia].
Qed.

Lemma C5_artwork_upgraded_witness :
  format_track_data JsonTarget [test_track] = Ok [test_record]
  ∧ Formatted.artwork_url test_record
    = VStr "https://example.com/artwork-t500x500.jpg"
  ∧ endswith "https://example.com/artwork-t500x500.jpg" "-t500x500.jpg" = true.
Proof.
  split; [vm_compute; reflexivity|].
  destruct (C5_artwork_upgraded JsonTarget [test_track] [test_record] 0
              test_track test_record "https://example.com/artwork-large.jpg")
    as (Hout & Hend & _);
    [vm_compute; reflexivity | reflexivity | reflexivity
    | vm_compute; reflexivity | discriminate |].
  split; [exact Hout|]. apply Hend. left. vm_compute. reflexivity.
Defined.

Lemma test_track_well_formed : well_formed test_track.
Proof.
  split; try (eexists; vm_compute; reflexivity).
  all: intros v; vm_compute; intros [= <-]; right; eauto.
Defined.

Lemma C10_frame_witness :
  (∃ out, format_track_data HtmlTarget [test_track] = Ok out)
  ∧ length [test_record] = length [test_track].
Proof.
  destruct (C10_frame HtmlTarget [test_track]) as [Htotal Hframe].
  split.
  - apply Htotal. constructor; [apply test_track_well_formed | constructor].
  - apply (Hframe [test_record]). vm_compute. reflexivity.
Defined.

Lemma C4_targets_agree_witness :
  HtmlPage.format_track_data [null_stream_track; test_track]
  = Ok [ {| Formatted.id := VInt 456;
            Formatted.title := VStr "No Artwork Track";
            Formatted.artwork_url := VStr "./moafunk.png";
            Formatted.created_at := VStr "2025-01-01T12:00:00Z";
            Formatted.duration := VInt 120000;
            Formatted.permalink_url := VStr "https://soundcloud.com/test2";
            Formatted.stream_url := VNone;
            Formatted.description := VStr "" |};
         test_record ]
  ∧ ∃ js, JsonFile.format_track_data [null_stream_track; test_track] = Ok js
          ∧ length js = 2%nat.
Proof.
  split; [vm_compute; reflexivity|].
  destruct (C4_targets_agree [null_stream_track; test_track]) as [H _].
  destruct (H _ ltac:(vm_compute; reflexivity)) as (js & Hjs & Hlen & _).
  exists js. by split.
Defined.

Lemma C3_public_fallback_witness :
  outcome offline (Fetch.filter_tracks [private_track; public_track])
  = Ok [public_track].
Proof.
  rewrite (C3_public_fallback offline [private_track; public_track]).
  - vm_compute. reflexivity.
  - intros track v [->|[->|[]%elem_of_nil]%elem_of_cons]%elem_of_cons;
      vm_compute; by intros [= <-].
  - exists public_track. split; [|vm_compute; reflexivity].
    right. left.
Defined.

Lemma C8_debug_fallback_witness :
  outcome offline (Fetch.filter_tracks [private_track; private_track])
  = Ok [private_track; private_track].
Proof.
  apply (C8_debug_fallback offline [private_track; private_track]).
  - intros track v [->|[->|[]%elem_of_nil]%elem_of_cons]%elem_of_cons;
      vm_compute; by intros [=].
  - intros track [->|[->|[]%elem_of_nil]%elem_of_cons]%elem_of_cons;
      vm_compute; by intros [=].
  - simpl. lia.
Defined.

Lemma C6_get_access_token_witness :
  outcome (λ _, denied "invalid_client") (JsonFile.get_access_token "id" "secret")
  = Err (Exception "Failed to get access token: 401")
  ∧ outcome (λ _, token_reply (VStr "abc"))
      (HtmlPage.get_access_token "id" "secret")
    = Ok (VStr "abc").
Proof.
  split.
  - destruct (C6_get_access_token "https://secure.soundcloud.com/oauth/token"
                "id" "secret" (denied "invalid_client")) as [Hraise _].
    apply Hraise. vm_compute. discriminate.
  - destruct (C6_get_access_token "https://api.soundcloud.com/oauth2/token"
                "id" "secret" (token_reply (VStr "abc"))) as (_ & Hok & _).
    unfold HtmlPage.get_access_token.
    rewrite (Hok {[ "access_token" := VStr "abc" ]} eq_refl eq_refl).
    vm_compute. reflexivity.
Defined.

(** C6, refuted as stated: two rejected token requests with different
    bodies raise the same exception, whose message holds neither body;
    and a reply with status 200 whose body is not JSON makes the
    authenticator raise. *)
Lemma C6_error_without_body :
  outcome (λ _, denied "invalid_client")
    (JsonFile.get_access_token "id" "secret")
  = Err (Exception "Failed to get access token: 401")
  ∧ outcome (λ _, denied "rate limit exceeded")
      (JsonFile.get_access_token "id" "secret")
    = Err (Exception "Failed to get access token: 401")
  ∧ contains "Failed to get access token: 401" "invalid_client" = false
  ∧ outcome (λ _, {| status_code := 200; text := "<html>"; body := None |})
      (JsonFile.get_access_token "id" "secret")
    = Err JSONDecodeError.
Proof. repeat split; vm_compute; reflexivity. Qed.

Lemma C7_resolve_failure_recovered_witness :
  ∃ rq1 rq2 rq3,
    requests (api (token_reply (VStr "abc")) (error_reply 404)
                (listing_reply [public_track]))
      (JsonFile.fetch_soundcloud_tracks "id" "secret" "radio-moafunk")
    = [rq1; rq2; rq3]
    ∧ req_url rq3
      = "https://api.soundcloud.com/users/radio-moafunk/tracks?limit=50".
Proof.
  destruct (C7_resolve_failure_recovered
              "https://secure.soundcloud.com/oauth/token" "id" "secret"
              "radio-moafunk" (token_reply (VStr "abc")) (error_reply 404)
              (listing_reply [public_track])) as [H _].
  destruct (H {[ "access_token" := VStr "abc" ]} eq_refl eq_refl)
    as ((rq1 & rq2 & rq3 & Hreq & _ & Hurl) & _); [vm_compute; discriminate|].
  exists rq1, rq2, rq3. split; [exact Hreq|]. rewrite Hurl.
  vm_compute. reflexivity.
Defined.

Lemma C9_missing_id_witness :
  ∃ rq1 rq2 rq3,
    requests (api (token_reply (VStr "abc")) (user_reply ∅)
                (error_reply 404))
      (HtmlPage.fetch_soundcloud_tracks "id" "secret" "radio-moafunk")
    = [rq1; rq2; rq3]
    ∧ req_url rq3 = "https://api.soundcloud.com/users/None/tracks?limit=50".
Proof.
  destruct (C9_missing_id "https://api.soundcloud.com/oauth2/token" "id"
              "secret" "radio-moafunk" (token_reply (VStr "abc"))
              (user_reply ∅) (error_reply 404)
              {[ "access_token" := VStr "abc" ]} ∅)
    as (rq1 & rq2 & rq3 & Hreq & _ & Hurl);
    [reflexivity | reflexivity | reflexivity | reflexivity
    | vm_compute; reflexivity |].
  exists rq1, rq2, rq3. split; [exact Hreq|]. rewrite Hurl.
  vm_compute. reflexivity.
Defined.

(** * Further properties *)

(** ** The filter stage, further *)

Section FilterStage.

Context (server : request → response).
Implicit Types (tracks out : list dict) (track : dict).

(** The three tiers of the filter stage as one value. *)
Lemma filter_tracks_outcome tracks :
  outcome server (Fetch.filter_tracks tracks)
  = Ok match List.filter Fetch.is_streamable tracks with
       | [] =>
           match List.filter Fetch.is_public tracks with
           | [] => take 10 tracks
           | public => public
           end
       | streamable => streamable
       end.
Proof.
  unfold Fetch.filter_tracks.
  destruct (List.filter Fetch.is_streamable tracks);
    [destruct (List.filter Fetch.is_public tracks)|]; done.
Qed.

Lemma filter_sublist {X} (f : X → bool) (l : list X) :
  List.filter f l `sublist_of` l.
Proof.
  induction l as [|x l IH]; simpl; [done|].
  destruct (f x); by constructor.
Qed.

Lemma filter_filter_nil {X} (f g : X → bool) (l : list X) :
  List.filter f l = [] → List.filter f (List.filter g l) = [].
Proof.
  induction l as [|x l IH]; simpl; [done|].
  destruct (f x) eqn:Hf; [done|]. intros Hl.
  destruct (g x); simpl; [rewrite Hf|]; by apply IH.
Qed.

Lemma filter_take_nil {X} (f : X → bool) (l : list X) n :
  List.filter f l = [] → List.filter f (take n l) = [].
Proof.
  revert n; induction l as [|x l IH]; intros [|n]; simpl; try done.
  destruct (f x); [done|]. apply IH.
Qed.

Lemma filter_idemp {X} (f : X → bool) (l : list X) :
  List.filter f (List.filter f l) = List.filter f l.
Proof.
  induction l as [|x l IH]; simpl; [done|].
  destruct (f x) eqn:Hf; simpl; [rewrite Hf; by f_equal | done].
Qed.

(** As soon as one track of the listing has a truthy [streamable],
    the filter stage returns the tracks with a truthy [streamable], in
    their order, whatever their [sharing]. *)
Theorem filter_streamable_tier tracks :
  (∃ track v, track ∈ tracks ∧ track !! "streamable" = Some v
              ∧ truthy v = true) →
  outcome server (Fetch.filter_tracks tracks)
  = Ok (List.filter
          (λ track, match track !! "streamable" with
                    | Some v => truthy v
                    | None => false
                    end) tracks).
Proof.
  intros (track & v & Hin & Hv & Htr). rewrite filter_tracks_outcome.
  destruct (filter_cons_in Fetch.is_streamable tracks track Hin)
    as (y & k & Hy); [apply is_streamable_spec; eauto|].
  rewrite Hy, <- Hy. f_equal. apply filter_ext. intros t.
  unfold Fetch.is_streamable, get_default. by destruct (t !! "streamable").
Qed.

(** The filter stage returns the empty list only for the empty
    listing. *)
Theorem filter_empty_iff tracks :
  outcome server (Fetch.filter_tracks tracks) = Ok [] ↔ tracks = [].
Proof.
  rewrite filter_tracks_outcome. split; [|by intros ->].
  destruct (List.filter Fetch.is_streamable tracks); [|by intros [=]].
  destruct (List.filter Fetch.is_public tracks); [|by intros [=]].
  destruct tracks; [done | by intros [=]].
Qed.

(** What the filter stage returns is a sublist of the listing: tracks
    of the listing, in the order of the listing, none of them twice. *)
Theorem filter_returns_sublist tracks :
  ∃ out, outcome server (Fetch.filter_tracks tracks) = Ok out
         ∧ out `sublist_of` tracks
         ∧ (length out ≤ length tracks)%nat.
Proof.
  rewrite filter_tracks_outcome. eexists. split; [done|].
  assert (∀ out, out `sublist_of` tracks →
                 out `sublist_of` tracks ∧ (length out ≤ length tracks)%nat)
    as Hlen by (intros out Hs; split; [done | by apply sublist_length]).
  apply Hlen.
  destruct (List.filter Fetch.is_streamable tracks) as [|t l] eqn:Hs.
  - destruct (List.filter Fetch.is_public tracks) as [|t l] eqn:Hp.
    + apply sublist_take.
    + rewrite <- Hp. apply filter_sublist.
  - rewrite <- Hs. apply filter_sublist.
Qed.

(** Filtering twice changes nothing: the filter stage returns its own
    result when run on it. *)
Theorem filter_idempotent tracks out :
  outcome server (Fetch.filter_tracks tracks) = Ok out →
  outcome server (Fetch.filter_tracks out) = Ok out.
Proof.
  rewrite !filter_tracks_outcome. intros [= <-].
  destruct (List.filter Fetch.is_streamable tracks) as [|t l] eqn:Hs.
  - destruct (List.filter Fetch.is_public tracks) as [|t l] eqn:Hp.
    + rewrite (filter_take_nil _ _ _ Hs), (filter_take_nil _ _ _ Hp).
      by rewrite take_take, Nat.min_id.
    + rewrite <- Hp, (filter_filter_nil _ _ _ Hs), filter_idemp.
      by rewrite Hp.
  - rewrite <- Hs, filter_idemp. by rewrite Hs.
Qed.

End FilterStage.

(** ** The authenticator and the fetch, further *)

Section Fetching.

Context (token_url client_id client_secret username : string).
Implicit Types (server : request → response) (tok res trk : response).

Local Abbreviation get_access_token :=
  (Fetch.get_access_token token_url client_id client_secret).
Local Abbreviation fetch_soundcloud_tracks :=
  (Fetch.fetch_soundcloud_tracks token_url client_id client_secret username).

(** Whatever the server answers, the authenticator sends one request and
    only one: a POST to the token endpoint with the form field
    [grant_type=client_credentials] and the credentials as
    [Basic base64(client_id:client_secret)]. *)
Theorem get_access_token_one_request server :
  requests server get_access_token
  = [token_request token_url client_id client_secret].
Proof.
  unfold requests. rewrite get_access_token_run. cbv zeta.
  by destruct (negb _).
Qed.

(** Two rejected token requests raise the same exception exactly when
    their status codes are the same. *)
Theorem get_access_token_error_status r1 r2 :
  status_code r1 ≠ 200 → status_code r2 ≠ 200 →
  outcome (λ _, r1) get_access_token = outcome (λ _, r2) get_access_token
  ↔ status_code r1 = status_code r2.
Proof.
  intros H1%Z.eqb_neq H2%Z.eqb_neq. unfold outcome.
  rewrite !get_access_token_run. cbv zeta beta. rewrite H1, H2.
  cbn [negb snd]. split.
  - intros [= H]. by apply (inj pretty).
  - by intros ->.
Qed.

(** A rejected token request ends the fetch: nothing is sent after it. *)
Theorem fetch_stops_without_token server :
  status_code (server (token_request token_url client_id client_secret))
  ≠ 200 →
  requests server fetch_soundcloud_tracks
  = [token_request token_url client_id client_secret]
  ∧ outcome server fetch_soundcloud_tracks
    = Err (Exception
             ("Failed to get access token: "
              +:+ pretty (status_code
                            (server (token_request token_url client_id
                                       client_secret))))).
Proof.
  intros Hne%Z.eqb_neq.
  unfold Fetch.fetch_soundcloud_tracks, Fetch.get_access_token.
  script_step. rewrite requests_print, requests_send, outcome_print, outcome_send.
  fold (token_request token_url client_id client_secret).
  script_step. rewrite Hne. script_step.
  by rewrite !requests_print, !outcome_print.
Qed.

(** With a token reply that is a JSON object, the fetch sends three
    requests. With a truthy token the two GETs carry it in an
    [Authorization: OAuth] header and no [client_id]; without one they
    carry no header and the [client_id] in the query string. The listing
    is asked for [account]: the username when the resolve reply is not a
    200, the formatted [id] of the resolved user otherwise. *)
Theorem fetch_authentication_mode tok res trk o account :
  status_code tok = 200 →
  body tok = Some (DocObject o) →
  (status_code res ≠ 200 ∧ account = username
   ∨ status_code res = 200
     ∧ ∃ o', body res = Some (DocObject o') ∧ account = py_str (get o' "id")) →
  ∃ rq2 rq3,
    requests (api tok res trk) fetch_soundcloud_tracks
    = [token_request token_url client_id client_secret; rq2; rq3]
    ∧ req_method rq2 = GET ∧ req_method rq3 = GET
    ∧ if truthy (get o "access_token")
      then req_headers rq2
           = [("Authorization", "OAuth " +:+ py_str (get o "access_token"))]
           ∧ req_headers rq3 = req_headers rq2
           ∧ req_url rq2
             = "https://api.soundcloud.com/resolve?url=https://soundcloud.com/"
               +:+ username
           ∧ req_url rq3
             = "https://api.soundcloud.com/users/" +:+ account
               +:+ "/tracks?limit=50"
      else req_headers rq2 = [] ∧ req_headers rq3 = []
           ∧ req_url rq2
             = "https://api.soundcloud.com/resolve?url=https://soundcloud.com/"
               +:+ username +:+ "&client_id=" +:+ client_id
           ∧ req_url rq3
             = "https://api.soundcloud.com/users/" +:+ account
               +:+ "/tracks?client_id=" +:+ client_id +:+ "&limit=50".
Proof.
  intros Htok Hbody Hres.
  destruct (fetch_run token_url client_id client_secret username
              tok res trk o account Htok Hbody Hres) as [Hreq _].
  eexists _, _. split; [exact Hreq|]. split; [done|]. split; [done|].
  cbn [req_headers req_url]. by destruct (truthy _).
Qed.

(** When the user resolves to a numeric [id], the listing is asked for
    that number, not for the username. *)
Theorem fetch_uses_resolved_id tok res trk o o' n :
  status_code tok = 200 → body tok = Some (DocObject o) →
  status_code res = 200 → body res = Some (DocObject o') →
  o' !! "id" = Some (VInt n) →
  ∃ rq1 rq2 rq3,
    requests (api tok res trk) fetch_soundcloud_tracks = [rq1; rq2; rq3]
    ∧ req_url rq3
      = if truthy (get o "access_token")
        then "https://api.soundcloud.com/users/" +:+ pretty n
             +:+ "/tracks?limit=50"
        else "https://api.soundcloud.com/users/" +:+ pretty n
             +:+ "/tracks?client_id=" +:+ client_id +:+ "&limit=50".
Proof.
  intros Htok Hbody Hres Hbody' Hid.
  destruct (fetch_run token_url client_id client_secret username
              tok res trk o (pretty n) Htok Hbody) as [Hreq _].
  { right. split; [done|]. exists o'. split; [done|].
    unfold get, get_default. by rewrite Hid. }
  eexists _, _, _. split; [exact Hreq|]. done.
Qed.

(** A resolve reply with status 200 whose body is not a JSON object is
    not recovered: the fetch raises after the second request and never
    asks for the listing. *)
Theorem fetch_resolve_body_fatal tok res trk o :
  status_code tok = 200 → body tok = Some (DocObject o) →
  status_code res = 200 →
  (∀ o', body res ≠ Some (DocObject o')) →
  ∃ rq2,
    requests (api tok res trk) fetch_soundcloud_tracks
    = [token_request token_url client_id client_secret; rq2]
    ∧ outcome (api tok res trk) fetch_soundcloud_tracks
      = Err (match body res with
             | None => JSONDecodeError
             | Some _ => AttributeError
             end).
Proof.
  intros Htok Hbody Hres Hnot.
  unfold Fetch.fetch_soundcloud_tracks, Fetch.get_access_token.
  script_step.
  rewrite requests_print, requests_send, outcome_print, outcome_send.
  rewrite !api_token. script_step. rewrite !Htok. script_step.
  unfold json. rewrite !Hbody. script_step.
  rewrite requests_print, outcome_print.
  fold (token_request token_url client_id client_secret).
  destruct (truthy (get o "access_token")); script_step.
  all: rewrite requests_print, requests_send, outcome_print, outcome_send.
  all: rewrite !api_resolve; script_step.
  all: rewrite !requests_print, !outcome_print, !Hres.
  all: destruct (body res) as [[o'|items]|]; [by destruct (Hnot o')| |].
  all: script_step; eexists; split; reflexivity.
Qed.

(** Whatever the server answers, the fetch sends the token request first
    and then at most two requests, both GETs. *)
Theorem fetch_at_most_three_requests server :
  ∃ rqs,
    requests server fetch_soundcloud_tracks
    = token_request token_url client_id client_secret :: rqs
    ∧ (length rqs ≤ 2)%nat
    ∧ Forall (λ rq, req_method rq = GET) rqs.
Proof.
  unfold Fetch.fetch_soundcloud_tracks, Fetch.get_access_token.
  script_step. rewrite requests_print, requests_send.
  fold (token_request token_url client_id client_secret).
  eexists. split; [reflexivity|].
  destruct (server (token_request _ _ _)) as [st1 tx1 [[o|items]|]];
    script_step.
  all: destruct (st1 =? 200); script_step;
    rewrite ?requests_print; try (split; [simpl; lia | constructor]).
  destruct (truthy (get o "access_token")); script_step.
  all: rewrite requests_print, requests_send.
  all: destruct (server _) as [st2 tx2 bd2]; script_step.
  all: rewrite !requests_print.
  all: destruct (st2 =? 200); script_step.
  all: try (destruct bd2 as [[o'|items']|]; script_step;
            rewrite ?requests_print;
            try (split; [simpl; lia | by repeat constructor])).
  all: try destruct (truthy (get o "access_token")); script_step.
  all: rewrite ?requests_print, ?requests_send.
  all: set (trk := server _);
    pose proof (after_listing_requests server trk) as Htail; clearbody trk.
  all: unfold after_listing in Htail; script_step in Htail.
  all: script_step; rewrite ?requests_print in Htail |- *.
  all: rewrite Htail; split; [simpl; lia | by repeat constructor].
Qed.

End Fetching.

(** ** The normalizer, further *)

Section Suffixes.

Implicit Types s p q t x n : string.

Lemma dash_free_head c s :
  dash_free (String c s) = true → Ascii.eqb "-" c = false.
Proof.
  intros [Hc _]%dash_free_cons. apply Ascii.eqb_neq. congruence.
Qed.

(** Up to its first dash a string is left alone by the replacement of a
    pattern that starts with a dash by a text that starts with a dash. *)
Lemma startswith_replace_from p n s t :
  dash_free t = true →
  startswith (replace_from (String "-" p) (String "-" n) 0 s) t
  = startswith s t.
Proof.
  revert t; induction s as [|c s IH]; intros t Ht; [done|].
  destruct t as [|a t]; [done|].
  pose proof (dash_free_head _ _ Ht) as Ha.
  apply dash_free_cons in Ht as [_ Ht].
  cbn [replace_from].
  destruct (startswith (String c s) (String "-" p)) eqn:Hs.
  - cbn [startswith] in Hs. apply andb_true_iff in Hs as [Hc _].
    apply Ascii.eqb_eq in Hc as <-.
    rewrite app_cons. cbn [startswith]. by rewrite Ascii.eqb_sym, Ha.
  - cbn [startswith]. by rewrite IH.
Qed.

(** Two strings that both start a third one start one another. *)
Lemma startswith_app_split x s t :
  startswith (x +:+ s) t = true →
  startswith x t = true ∨ startswith t x = true.
Proof.
  revert t; induction x as [|c x IH]; intros t; [by right|].
  destruct t as [|a t]; [by left|].
  rewrite app_cons. cbn [startswith].
  intros [Hc Ht]%andb_true_iff. rewrite Hc.
  apply Ascii.eqb_eq in Hc as ->. rewrite Ascii.eqb_refl.
  destruct (IH t Ht) as [->| ->]; auto.
Qed.

(** A pattern that starts with a dash is not found inside a dash-free
    text in front of a string. *)
Lemma contains_dash_free_app x s q :
  dash_free x = true →
  contains (x +:+ s) (String "-" q) = contains s (String "-" q).
Proof.
  induction x as [|c x IH]; intros Hx; [done|].
  pose proof (dash_free_head _ _ Hx) as Hc.
  apply dash_free_cons in Hx as [_ Hx].
  rewrite app_cons. cbn [contains startswith]. rewrite Hc. by apply IH.
Qed.

Lemma contains_tail c s q :
  contains (String c s) q = false → contains s q = false.
Proof. cbn [contains]. by intros [_ ?]%orb_false_iff. Qed.

Lemma contains_head s q : contains s q = false → startswith s q = false.
Proof. destruct s; cbn [contains]; by intros [? _]%orb_false_iff. Qed.

(** Replacing [-p] by [-n] leaves no [-q] behind, for [q = p] and for
    every [-q] that the string did not hold, as long as neither of [-n]
    and [-q] starts the other. *)
Lemma replace_from_clears p n q s k :
  dash_free n = true → dash_free q = true →
  startswith n q = false → startswith q n = false →
  q = p ∨ contains s (String "-" q) = false →
  contains (replace_from (String "-" p) (String "-" n) k s) (String "-" q)
  = false.
Proof.
  intros Hn Hqf Hnq Hqn. revert k; induction s as [|c s IH]; intros k Hq; [done|].
  assert (q = p ∨ contains s (String "-" q) = false) as Hq'.
  { destruct Hq as [->|Hq]; [by left | right; by eapply contains_tail]. }
  destruct k as [|k]; [|by apply IH].
  cbn [replace_from].
  destruct (startswith (String c s) (String "-" p)) eqn:Hs.
  - rewrite app_cons. cbn [contains startswith]. rewrite Ascii.eqb_refl.
    cbn [andb]. rewrite contains_dash_free_app by done.
    rewrite IH by done. rewrite orb_false_r.
    apply not_true_is_false.
    intros [H|H]%startswith_app_split; congruence.
  - cbn [contains]. rewrite IH by done. rewrite orb_false_r.
    cbn [startswith]. rewrite startswith_replace_from.
    + change (startswith (String c s) (String "-" q) = false).
      destruct Hq as [->|Hq]; [done | by apply contains_head].
    + done.
Qed.

Lemma replace_clears p n q s :
  dash_free n = true → dash_free q = true →
  startswith n q = false → startswith q n = false →
  q = p ∨ contains s (String "-" q) = false →
  contains (replace s (String "-" p) (String "-" n)) (String "-" q) = false.
Proof. apply replace_from_clears. Qed.

(** No low-resolution suffix is left after the three rewrites. *)
Lemma upgrade_artwork_clears s :
  contains (upgrade_artwork s) "-large.jpg" = false
  ∧ contains (upgrade_artwork s) "-crop.jpg" = false
  ∧ contains (upgrade_artwork s) "-t300x300.jpg" = false.
Proof.
  unfold upgrade_artwork.
  set (s1 := replace s "-large.jpg" "-t500x500.jpg").
  set (s2 := replace s1 "-crop.jpg" "-t500x500.jpg").
  assert (contains s1 "-large.jpg" = false) as H1
    by (apply replace_clears; auto).
  assert (contains s2 "-large.jpg" = false) as H2
    by (apply replace_clears; auto).
  assert (contains s2 "-crop.jpg" = false) as H3
    by (apply replace_clears; auto).
  repeat split; apply replace_clears; auto.
Qed.

Lemma upgrade_artwork_idempotent s :
  upgrade_artwork (upgrade_artwork s) = upgrade_artwork s.
Proof.
  destruct (upgrade_artwork_clears s) as (H1 & H2 & H3).
  unfold upgrade_artwork at 1.
  by rewrite (replace_absent _ _ _ _ H1), (replace_absent _ _ _ _ H2),
    (replace_absent _ _ _ _ H3).
Qed.

End Suffixes.

Section NormalizerExtras.

Implicit Types (track : dict) (ft : Formatted.t) (tg : target).

(** Whatever the raw track holds, the artwork address of a normalized
    record is a text without any of the three low-resolution suffixes,
    and the three rewrites would leave it as it is. *)
Theorem artwork_has_no_low_resolution_suffix tg tracks out i ft :
  format_track_data tg tracks = Ok out →
  out !! i = Some ft →
  ∃ a, Formatted.artwork_url ft = VStr a
       ∧ contains a "-large.jpg" = false
       ∧ contains a "-crop.jpg" = false
       ∧ contains a "-t300x300.jpg" = false
       ∧ replace (replace (replace a "-large.jpg" "-t500x500.jpg")
                    "-crop.jpg" "-t500x500.jpg")
           "-t300x300.jpg" "-t500x500.jpg" = a.
Proof.
  intros Hf%format_track_data_normalized Ho.
  destruct (Forall2_lookup_r _ _ _ _ _ Hf Ho) as (track & _ & Hn).
  destruct Hn as [_ _ _ _ _ _ Ha _].
  destruct (truthy _).
  - destruct Ha as (s & _ & ->). exists (upgrade_artwork s).
    split; [done|]. destruct (upgrade_artwork_clears s) as (? & ? & ?).
    repeat (split; [done|]). apply upgrade_artwork_idempotent.
  - rewrite Ha. exists (placeholder tg). by destruct tg.
Qed.

(** A missing or falsy raw artwork (absent, null, empty text, zero or
    false) becomes the placeholder of the target. *)
Theorem falsy_artwork_gets_placeholder tg tracks out i track ft :
  format_track_data tg tracks = Ok out →
  tracks !! i = Some track → out !! i = Some ft →
  (∀ v, track !! "artwork_url" = Some v → truthy v = false) →
  Formatted.artwork_url ft
  = VStr match tg with
         | JsonTarget => "/moafunk.png"
         | HtmlTarget => "./moafunk.png"
         end.
Proof.
  intros Hf Ht Ho Hfalsy.
  destruct (format_track_data_lookup _ _ _ _ _ _ Hf Ht Ho)
    as [_ _ _ _ _ _ Ha _].
  unfold get, get_default in Ha.
  destruct (track !! "artwork_url") as [v|]; simpl in Ha.
  - rewrite (Hfalsy v eq_refl) in Ha. rewrite Ha. by destruct tg.
  - rewrite Ha. by destruct tg.
Qed.

(** A non-empty description of at most 200 characters (code points, as
    [len] counts them) is not cut but still gets the ellipsis: the JSON
    file holds it followed by [...], the page its HTML-escaping followed
    by [...]. *)
Theorem short_description_gets_ellipsis tg tracks out i track ft d :
  format_track_data tg tracks = Ok out →
  tracks !! i = Some track → out !! i = Some ft →
  track !! "description" = Some (VStr d) →
  d ≠ "" → (str_len d ≤ 200)%nat →
  Formatted.description ft
  = VStr match tg with
         | JsonTarget => d +:+ "..."
         | HtmlTarget => escape d +:+ "..."
         end.
Proof.
  intros Hf Ht Ho Hraw Hne Hlen.
  destruct (format_track_data_lookup _ _ _ _ _ _ Hf Ht Ho)
    as [_ _ _ _ _ _ _ Hd].
  unfold get, get_default in Hd. rewrite Hraw in Hd. simpl in Hd.
  apply String.eqb_neq in Hne. rewrite Hne in Hd.
  destruct Hd as (s & [= <-] & Hout).
  rewrite str_take_all in Hout by done.
  destruct tg; cbn [out_text html_escape] in Hout; injection Hout as <-;
    [done | by rewrite escape_dots].
Qed.

(** A description that is absent or falsy (null, empty text, zero or
    false) becomes the empty text. *)
Theorem falsy_description_is_empty tg tracks out i track ft :
  format_track_data tg tracks = Ok out →
  tracks !! i = Some track → out !! i = Some ft →
  (∀ v, track !! "description" = Some v → truthy v = false) →
  Formatted.description ft = VStr "".
Proof.
  intros Hf Ht Ho Hfalsy.
  destruct (format_track_data_lookup _ _ _ _ _ _ Hf Ht Ho)
    as [_ _ _ _ _ _ _ Hd].
  unfold get, get_default in Hd.
  destruct (track !! "description") as [v|]; simpl in Hd; [|done].
  by rewrite (Hfalsy v eq_refl) in Hd.
Qed.

Lemma mapM_app_result {A B} (f : A → result B) l1 l2 :
  mapM f (l1 ++ l2)
  = (o1 ← mapM f l1; o2 ← mapM f l2; mret (o1 ++ o2)).
Proof.
  induction l1 as [|x l1 IH]; cbn [mapM app].
  - cbn. by destruct (mapM f l2).
  - destruct (f x) as [y|e]; cbn; [|done]. rewrite IH.
    destruct (mapM f l1) as [o1|e]; cbn; [|done].
    by destruct (mapM f l2).
Qed.

(** Normalizing a listing made of two parts is normalizing the parts one
    after the other: the first error met is raised, otherwise the records
    of the first part are followed by those of the second. *)
Theorem format_track_data_app tg tracks1 tracks2 :
  format_track_data tg (tracks1 ++ tracks2)
  = (out1 ← format_track_data tg tracks1;
     out2 ← format_track_data tg tracks2;
     mret (out1 ++ out2)).
Proof. rewrite !format_track_data_eq. apply mapM_app_result. Qed.

(** One track that cannot be normalized makes the whole listing fail with
    the error of that track: the records of the tracks before it are
    lost. *)
Theorem format_track_data_first_error tg before track rest e :
  is_ok (format_track_data tg before) = true →
  format_track_data tg [track] = Err e →
  format_track_data tg (before ++ track :: rest) = Err e.
Proof.
  intros Hb He. rewrite format_track_data_app.
  destruct (format_track_data tg before) as [out|]; [|done]. cbn.
  change (track :: rest) with ([track] ++ rest).
  rewrite format_track_data_app, He. done.
Qed.

Lemma format_track_data_singleton tg track :
  format_track_data tg [track] = (ft ← loop_body tg track; mret [ft]).
Proof.
  rewrite format_track_data_eq, <- format_track_loop_body. cbn [mapM].
  by destruct (format_track tg track).
Qed.

Lemma artwork_step_total tg track :
  (∀ v, track !! "artwork_url" = Some v →
        truthy v = false ∨ ∃ s, v = VStr s) →
  ∃ a, artwork_step (placeholder tg) track = Ok a.
Proof.
  intros Hart. unfold artwork_step, get_default.
  destruct (track !! "artwork_url") as [v|]; simpl.
  - destruct (Hart v eq_refl) as [Hv | [s ->]].
    + rewrite Hv. simpl. eauto.
    + destruct (_ && _); simpl; eauto.
  - destruct tg; simpl; eauto.
Qed.

(** A truthy raw artwork that is not text (a number, [true]) makes the
    normalizer raise [AttributeError], whatever else the track holds. *)
Theorem artwork_not_text_raises tg track v :
  track !! "artwork_url" = Some v →
  truthy v = true → (∀ s, v ≠ VStr s) →
  format_track_data tg [track] = Err AttributeError.
Proof.
  intros Hraw Htr Hns. rewrite format_track_data_singleton.
  unfold loop_body, artwork_step, get_default. rewrite Hraw. simpl.
  rewrite Htr. destruct v as [|b|n|s]; try done; [by destruct tg..|].
  by destruct (Hns s).
Qed.

(** The required fields are read in the order [id], [title],
    [created_at], [duration], [permalink_url]: for a track whose artwork
    is falsy or text (and, for the page, whose title is text), the first
    of them that is missing is the key of the [KeyError] raised. *)
Theorem missing_field_raises_key_error tg track before key after :
  ["id"; "title"; "created_at"; "duration"; "permalink_url"]
  = before ++ key :: after →
  (∀ v, track !! "artwork_url" = Some v →
        truthy v = false ∨ ∃ s, v = VStr s) →
  (tg = HtmlTarget → ∀ v, track !! "title" = Some v → ∃ s, v = VStr s) →
  Forall (λ k, is_Some (track !! k)) before →
  track !! key = None →
  format_track_data tg [track] = Err (KeyError (VStr key)).
Proof.
  intros Hkeys Hart Htitle Hbefore Hmiss.
  rewrite format_track_data_singleton. unfold loop_body.
  destruct (artwork_step_total tg track Hart) as [a ->]. cbn [mbind result_bind].
  unfold getitem.
  assert (∀ v, track !! "title" = Some v → ∃ v', out_text tg v = Ok v')
    as Hout.
  { intros v Hv. destruct tg; [by eexists|].
    destruct (Htitle eq_refl v Hv) as [s ->]. by eexists. }
  do 5 (destruct before as [|? before];
        [injection Hkeys as <- <-; by rewrite ?Hmiss|
         injection Hkeys as <- Hkeys;
         let Hk := fresh "Hk" in
         apply Forall_cons in Hbefore as [[? Hk] Hbefore];
         rewrite Hk; cbn [mbind result_bind];
         try (destruct (Hout _ Hk) as [? ->]; cbn [mbind result_bind])]).
  by destruct before.
Qed.

Lemma description_step_total track :
  (∀ v, track !! "description" = Some v →
        truthy v = false ∨ ∃ s, v = VStr s) →
  ∃ s, description_step track = Ok (VStr s).
Proof.
  intros Hd. unfold description_step, get_default.
  destruct (track !! "description") as [v|]; simpl; [|by eexists].
  destruct (Hd v eq_refl) as [Hv | [s ->]].
  - rewrite Hv. by eexists.
  - destruct (truthy (VStr s)); by eexists.
Qed.

(** The two scripts part on a title that is not text (a null, a number):
    the JSON-file script hands it on as it is, the page script raises
    [AttributeError] when it escapes it. *)
Theorem title_not_text track v :
  track !! "title" = Some v → (∀ s, v ≠ VStr s) →
  (∀ a, track !! "artwork_url" = Some a →
        truthy a = false ∨ ∃ s, a = VStr s) →
  is_Some (track !! "id") →
  (HtmlPage.format_track_data [track] = Err AttributeError)
  ∧ (is_Some (track !! "created_at") → is_Some (track !! "duration") →
     is_Some (track !! "permalink_url") →
     (∀ d, track !! "description" = Some d →
           truthy d = false ∨ ∃ s, d = VStr s) →
     ∃ ft, JsonFile.format_track_data [track] = Ok [ft]
           ∧ Formatted.title ft = v).
Proof.
  intros Ht Hns Hart [vid Hid]. split.
  - change (format_track_data HtmlTarget [track] = Err AttributeError).
    rewrite format_track_data_singleton. unfold loop_body.
    destruct (artwork_step_total HtmlTarget track Hart) as [a ->].
    cbn [mbind result_bind]. unfold getitem. rewrite Hid, Ht.
    cbn [mbind result_bind out_text].
    destruct v as [| | |s]; try done. by destruct (Hns s).
  - intros [vc Hc] [vd Hd] [vp Hp] Hdesc.
    change (∃ ft, format_track_data JsonTarget [track] = Ok [ft]
                  ∧ Formatted.title ft = v).
    rewrite format_track_data_singleton. unfold loop_body.
    destruct (artwork_step_total JsonTarget track Hart) as [a ->].
    destruct (description_step_total track Hdesc) as [d ->].
    cbn [mbind result_bind]. unfold getitem. rewrite Hid, Ht, Hc, Hd, Hp.
    cbn [mbind result_bind out_text]. eexists. split; [reflexivity|done].
Qed.

(** A truthy description that is not text makes the normalizer raise
    [TypeError], once the fields before it have been read. *)
Theorem description_not_text_raises tg track d t :
  track !! "description" = Some d →
  truthy d = true → (∀ s, d ≠ VStr s) →
  (∀ a, track !! "artwork_url" = Some a →
        truthy a = false ∨ ∃ s, a = VStr s) →
  track !! "title" = Some (VStr t) →
  is_Some (track !! "id") → is_Some (track !! "created_at") →
  is_Some (track !! "duration") → is_Some (track !! "permalink_url") →
  format_track_data tg [track] = Err TypeError.
Proof.
  intros Hraw Htr Hns Hart Ht [vid Hid] [vc Hc] [vd Hd] [vp Hp].
  rewrite format_track_data_singleton. unfold loop_body.
  destruct (artwork_step_total tg track Hart) as [a ->].
  cbn [mbind result_bind]. unfold getitem. rewrite Hid, Ht.
  cbn [mbind result_bind].
  assert (∃ t', out_text tg (VStr t) = Ok t') as [t' ->]
    by (destruct tg; by eexists).
  cbn [mbind result_bind]. rewrite Hc, Hd, Hp. cbn [mbind result_bind].
  unfold description_step, get_default. rewrite Hraw. simpl. rewrite Htr.
  destruct d as [|b|n|s]; try done. by destruct (Hns s).
Qed.

Lemma contains_char_app c x y :
  contains (x +:+ y) (String c "")
  = contains x (String c "") || contains y (String c "").
Proof.
  induction x as [|d x IH].
  - rewrite app_nil_l. cbn [contains startswith]. by destruct y.
  - rewrite app_cons. cbn [contains startswith]. rewrite IH.
    by rewrite orb_assoc.
Qed.

Lemma escape_char_safe c :
  contains (escape (String c "")) "<" = false
  ∧ contains (escape (String c "")) ">" = false
  ∧ contains (escape (String c "")) dquote = false
  ∧ contains (escape (String c "")) "'" = false.
Proof. destruct c as [[] [] [] [] [] [] [] []]; by vm_compute. Qed.

(** Escaped text holds no [<], no [>] and no quote of either kind. *)
Lemma escape_safe s :
  contains (escape s) "<" = false
  ∧ contains (escape s) ">" = false
  ∧ contains (escape s) dquote = false
  ∧ contains (escape s) "'" = false.
Proof.
  induction s as [|c s (H1 & H2 & H3 & H4)]; [by vm_compute|].
  change (String c s) with (String c "" +:+ s). rewrite escape_app.
  destruct (escape_char_safe c) as (C1 & C2 & C3 & C4).
  unfold dquote in *. rewrite !contains_char_app.
  by rewrite H1, H2, H3, H4, C1, C2, C3, C4.
Qed.

(** The title and the description of every record of the page are text
    without [<], [>], double or single quote. *)
Theorem page_text_is_escaped tracks out i ft :
  HtmlPage.format_track_data tracks = Ok out →
  out !! i = Some ft →
  ∃ t d,
    Formatted.title ft = VStr t ∧ Formatted.description ft = VStr d
    ∧ Forall (λ c, contains t c = false ∧ contains d c = false)
        ["<"; ">"; dquote; "'"].
Proof.
  intros Hf Ho. change (format_track_data HtmlTarget tracks = Ok out) in Hf.
  apply format_track_data_normalized in Hf.
  destruct (Forall2_lookup_r _ _ _ _ _ Hf Ho) as (track & _ & Hn).
  destruct Hn as [_ (v & _ & Ht) _ _ _ _ _ Hd].
  assert (∃ t, Formatted.title ft = VStr (escape t)) as [t Ht'].
  { destruct v as [| | |t]; try done. injection Ht as <-. eauto. }
  assert (∃ d, Formatted.description ft = VStr (escape d)) as [d Hd'].
  { destruct (truthy _).
    - destruct Hd as (s & _ & [= <-]). eauto.
    - exists "". by rewrite Hd. }
  exists (escape t), (escape d). split; [done|]. split; [done|].
  destruct (escape_safe t) as (? & ? & ? & ?).
  destruct (escape_safe d) as (? & ? & ? & ?).
  by repeat constructor.
Qed.

End NormalizerExtras.

(** ** From the fetch to the records *)

Section Binds.

Context {A B : Type} (server : request → response).

Lemma run_bind (m : io A) (f : A → io B) :
  run server (m ≫= f)
  = match (run server m).2 with
    | Ok a => ((run server m).1 ++ (run server (f a)).1, (run server (f a)).2)
    | Err e => ((run server m).1, Err e)
    end.
Proof.
  induction m as [a|e|line k IH|rq k IH].
  - cbn. by destruct (run server (f a)).
  - done.
  - change (Print line k ≫= f) with (Print line (k ≫= f)).
    rewrite !run_print, IH. by destruct (run server k).2.
  - change (Send rq k ≫= f) with (Send rq (λ r, k r ≫= f)).
    rewrite !run_send, IH. by destruct (run server (k (server rq))).2.
Qed.

Lemma outcome_bind (m : io A) (f : A → io B) :
  outcome server (m ≫= f)
  = match outcome server m with
    | Ok a => outcome server (f a)
    | Err e => Err e
    end.
Proof. unfold outcome. rewrite run_bind. by destruct (run server m).2. Qed.

End Binds.

Lemma outcome_lift {A} server (r : result A) : outcome server (lift r) = r.
Proof. by destruct r. Qed.

Lemma Forall_sublist_of {X} (P : X → Prop) (k l : list X) :
  k `sublist_of` l → Forall P l → Forall P k.
Proof.
  induction 1 as [|x k l _ IH|x k l _ IH]; [done|..];
    intros [Hx Hl]%Forall_cons; [constructor|]; auto.
Qed.

Section FetchEndToEnd.

Context (token_url client_id client_secret username : string).
Implicit Types (tok res trk : response) (tracks : list dict).

(** With a token reply that is a JSON object, a resolve reply that is
    either not a 200 or a JSON object, and a 200 listing that is an
    array, the fetch returns what the filter stage returns on that
    array: the user being resolved or not changes the requests, not the
    tracks. *)
Theorem fetch_returns_filtered_listing tok res trk o tracks :
  status_code tok = 200 → body tok = Some (DocObject o) →
  (status_code res ≠ 200 ∨ ∃ o', body res = Some (DocObject o')) →
  status_code trk = 200 → body trk = Some (DocArray tracks) →
  outcome (api tok res trk)
    (Fetch.fetch_soundcloud_tracks token_url client_id client_secret username)
  = Ok match List.filter Fetch.is_streamable tracks with
       | [] =>
           match List.filter Fetch.is_public tracks with
           | [] => take 10 tracks
           | public => public
           end
       | streamable => streamable
       end.
Proof.
  intros Htok Hbody Hres Htrk Hlist.
  assert (∃ account,
            status_code res ≠ 200 ∧ account = username
            ∨ status_code res = 200
              ∧ ∃ o', body res = Some (DocObject o')
                      ∧ account = py_str (get o' "id")) as [account Hacc].
  { destruct (decide (status_code res = 200)) as [Heq|Hne].
    - destruct Hres as [?|[o' Ho']]; [done|].
      exists (py_str (get o' "id")). right. eauto.
    - exists username. by left. }
  destruct (fetch_run token_url client_id client_secret username
              tok res trk o account Htok Hbody Hacc) as [_ ->].
  destruct (after_listing_spec (api tok res trk) trk) as (_ & _ & Hok).
  rewrite (Hok tracks Htrk Hlist). apply filter_tracks_outcome.
Qed.

End FetchEndToEnd.

Section ErrorClasses.

Implicit Types (tg : target) (track : dict).

Lemma loop_body_errors tg track e :
  loop_body tg track = Err e →
  e = AttributeError ∨ e = TypeError
  ∨ ∃ key, e = KeyError (VStr key) ∧ track !! key = None
           ∧ key ∈ ["id"; "title"; "created_at"; "duration"; "permalink_url"].
Proof.
  unfold loop_body, artwork_step, description_step, getitem, get_default.
  destruct tg, (track !! "artwork_url") as [[|[]|n|s]|]; simpl.
  all: try destruct (negb (n =? 0)); simpl.
  all: try destruct (negb (String.eqb s "") && _); simpl.
  all: try (intros [= <-]; by left).
  all: destruct (track !! "id") eqn:Hid; simpl;
    [|intros [= <-]; right; right; eexists; split; [done|];
      split; [done | set_solver]].
  all: destruct (track !! "title") as [vt|] eqn:Ht; simpl;
    [|intros [= <-]; right; right; eexists; split; [done|];
      split; [done | set_solver]].
  all: try (destruct vt; simpl; try (intros [= <-]; by left)).
  all: destruct (track !! "created_at") eqn:Hc; simpl;
    [|intros [= <-]; right; right; eexists; split; [done|];
      split; [done | set_solver]].
  all: destruct (track !! "duration") eqn:Hd; simpl;
    [|intros [= <-]; right; right; eexists; split; [done|];
      split; [done | set_solver]].
  all: destruct (track !! "permalink_url") eqn:Hp; simpl;
    [|intros [= <-]; right; right; eexists; split; [done|];
      split; [done | set_solver]].
  all: destruct (track !! "description") as [[|[]|m|d]|]; simpl.
  all: try destruct (negb (m =? 0)); simpl.
  all: try destruct (negb (String.eqb d "")); simpl.
  all: try (intros [= <-]; right; by left).
  all: done.
Qed.

(** The normalizer raises nothing but [AttributeError], [TypeError] and a
    [KeyError] whose key is a required field that some track lacks. *)
Theorem format_track_data_errors tg tracks e :
  format_track_data tg tracks = Err e →
  e = AttributeError ∨ e = TypeError
  ∨ ∃ key track,
      e = KeyError (VStr key) ∧ track ∈ tracks ∧ track !! key = None
      ∧ key ∈ ["id"; "title"; "created_at"; "duration"; "permalink_url"].
Proof.
  rewrite format_track_data_eq.
  induction tracks as [|track tracks IH]; cbn [mapM]; [done|].
  rewrite format_track_loop_body.
  destruct (loop_body tg track) as [ft|e'] eqn:Hb; cbn.
  - destruct (mapM (format_track tg) tracks) as [out|e'']; cbn; [done|].
    intros [= <-].
    destruct (IH eq_refl) as [?|[?|(key & t & ? & ? & ? & ?)]]; auto.
    right; right. exists key, t. repeat split; auto. by right.
  - intros [= <-].
    destruct (loop_body_errors _ _ _ Hb) as [?|[?|(key & ? & ? & ?)]]; auto.
    right; right. exists key, track. repeat split; auto. by left.
Qed.

End ErrorClasses.

Section Main.

Context (client_id client_secret username : string).
Implicit Types (tg : target) (tok res trk : response) (tracks : list dict).

(** The outcome of [main] from the outcome of the fetch. *)
Lemma main_outcome tg server :
  outcome server (main tg client_id client_secret username)
  = match outcome server
            (Fetch.fetch_soundcloud_tracks (token_url tg) client_id
               client_secret username) with
    | Ok [] => Err (Exception "No tracks found or API error occurred")
    | Ok tracks => format_track_data tg tracks
    | Err e => Err e
    end.
Proof.
  destruct tg; unfold main, json_file_main, html_page_main.
  all: change (print ?l ;; ?k) with (Print l k).
  all: rewrite outcome_print, outcome_bind.
  all: unfold JsonFile.fetch_soundcloud_tracks, HtmlPage.fetch_soundcloud_tracks,
         token_url.
  all: destruct (outcome server _) as [[|track tracks]|e]; try done.
  all: apply outcome_lift.
Qed.

(** With replies that let the fetch through, [main] raises its "No
    tracks found" exception exactly when the listing is empty: the debug
    tier of the filter keeps every other listing non-empty. *)
Theorem main_no_tracks_iff tg tok res trk o tracks :
  status_code tok = 200 → body tok = Some (DocObject o) →
  (status_code res ≠ 200 ∨ ∃ o', body res = Some (DocObject o')) →
  status_code trk = 200 → body trk = Some (DocArray tracks) →
  outcome (api tok res trk) (main tg client_id client_secret username)
  = Err (Exception "No tracks found or API error occurred")
  ↔ tracks = [].
Proof.
  intros Htok Hbody Hres Htrk Hlist. rewrite main_outcome.
  rewrite (fetch_returns_filtered_listing _ _ _ _ _ _ _ _ _
             Htok Hbody Hres Htrk Hlist).
  split.
  - destruct (List.filter Fetch.is_streamable tracks) as [|t l] eqn:Hs.
    + destruct (List.filter Fetch.is_public tracks) as [|t l] eqn:Hp.
      * destruct tracks as [|t tracks]; [done|]. cbn [take].
        intros [?|[?|(? & ? & ? & _)]]%format_track_data_errors; done.
      * intros [?|[?|(? & ? & ? & _)]]%format_track_data_errors; done.
    + intros [?|[?|(? & ? & ? & _)]]%format_track_data_errors; done.
  - by intros ->.
Qed.

(** On a non-empty listing of well-formed tracks [main] gets its list of
    records: at least one, at most one per track of the listing. *)
Theorem main_returns_records tg tok res trk o tracks :
  status_code tok = 200 → body tok = Some (DocObject o) →
  (status_code res ≠ 200 ∨ ∃ o', body res = Some (DocObject o')) →
  status_code trk = 200 → body trk = Some (DocArray tracks) →
  Forall well_formed tracks → tracks ≠ [] →
  ∃ out,
    outcome (api tok res trk) (main tg client_id client_secret username)
    = Ok out
    ∧ (1 ≤ length out ≤ length tracks)%nat.
Proof.
  intros Htok Hbody Hres Htrk Hlist Hwf Hne. rewrite main_outcome.
  rewrite (fetch_returns_filtered_listing _ _ _ _ _ _ _ _ _
             Htok Hbody Hres Htrk Hlist).
  set (kept := match List.filter Fetch.is_streamable tracks with
               | [] => match List.filter Fetch.is_public tracks with
                       | [] => take 10 tracks
                       | public => public
                       end
               | streamable => streamable
               end).
  assert (kept `sublist_of` tracks) as Hsub.
  { subst kept.
    destruct (List.filter Fetch.is_streamable tracks) as [|t l] eqn:Hs.
    - destruct (List.filter Fetch.is_public tracks) as [|t l] eqn:Hp.
      + apply sublist_take.
      + rewrite <- Hp. apply filter_sublist.
    - rewrite <- Hs. apply filter_sublist. }
  assert (kept ≠ []) as Hkept.
  { subst kept.
    destruct (List.filter Fetch.is_streamable tracks); [|done].
    destruct (List.filter Fetch.is_public tracks); [|done].
    by destruct tracks. }
  destruct (format_track_data_total tg kept) as [out Hout];
    [by eapply Forall_sublist_of|].
  exists out. pose proof (format_track_data_length _ _ _ Hout) as Hlen.
  pose proof (sublist_length _ _ Hsub).
  destruct kept as [|t kept]; [done|]. split; [done|].
  rewrite Hlen. simpl in *. lia.
Qed.

End Main.

(** ** The duration shown by the page *)

Lemma two_digits s :
  0 ≤ s < 60 →
  padStart (pretty s) 2 "0" = pretty (s `div` 10) +:+ pretty (s `mod` 10).
Proof.
  intros Hs. rewrite <- (Z2Nat.id s) by lia.
  assert (Z.to_nat s < 60)%nat as Hn by lia.
  generalize dependent (Z.to_nat s). clear. intros n Hn.
  do 60 (destruct n as [|n]; [by vm_compute|]). lia.
Qed.

(** A duration from 0 up to 2^53 milliseconds is shown as whole minutes,
    a colon and two digits of seconds below 60; minutes are never folded
    into hours, and the seconds shown are the duration in seconds rounded
    down. *)
Theorem formatDuration_minutes_seconds ms :
  0 ≤ ms < 2 ^ 53 →
  ∃ tens units,
    0 ≤ tens < 6 ∧ 0 ≤ units < 10
    ∧ formatDuration ms
      = Some (pretty (ms `div` 60000) +:+ ":" +:+ pretty tens
              +:+ pretty units)
    ∧ 60 * (ms `div` 60000) + (10 * tens + units) = ms `div` 1000.
Proof.
  intros Hms. unfold formatDuration, safe_duration.
  rewrite (proj2 (Z.leb_le 0 ms)), (proj2 (Z.ltb_lt ms (2 ^ 53))) by lia.
  cbn [andb]. cbv zeta.
  rewrite Z.rem_mod_nonneg by lia.
  set (s := (ms `mod` 60000) `div` 1000).
  assert (0 ≤ s < 60) as Hs.
  { subst s. pose proof (Z.mod_pos_bound ms 60000 ltac:(lia)).
    split; [apply Z.div_pos; lia | apply Z.div_lt_upper_bound; lia]. }
  exists (s `div` 10), (s `mod` 10).
  split; [split; [apply Z.div_pos; lia | apply Z.div_lt_upper_bound; lia]|].
  split; [apply Z.mod_pos_bound; lia|].
  split; [by rewrite two_digits|].
  rewrite <- (Z.div_mod s 10) by lia. subst s.
  pose proof (Z.div_mod ms 60000 ltac:(lia)) as H1.
  rewrite H1 at 3. rewrite (Z.mul_comm 60000).
  replace (ms `div` 60000 * 60000) with ((ms `div` 60000 * 60) * 1000) by lia.
  rewrite Z.div_add_l by lia. lia.
Qed.

(** ** The further properties on sample data *)

Lemma filter_streamable_tier_witness :
  outcome offline (Fetch.filter_tracks [private_track; streamable_track])
  = Ok [streamable_track].
Proof.
  rewrite (filter_streamable_tier offline [private_track; streamable_track]).
  - vm_compute. reflexivity.
  - exists streamable_track, (VBool true).
    split; [right; left | split; vm_compute; reflexivity].
Defined.

Lemma filter_idempotent_witness :
  outcome offline (Fetch.filter_tracks [public_track]) = Ok [public_track].
Proof.
  apply (filter_idempotent offline [private_track; public_track]).
  vm_compute. reflexivity.
Defined.

Lemma get_access_token_error_status_witness :
  outcome (λ _, denied "invalid_client")
    (JsonFile.get_access_token "id" "secret")
  = outcome (λ _, denied "rate limit exceeded")
      (JsonFile.get_access_token "id" "secret").
Proof.
  apply (get_access_token_error_status
           "https://secure.soundcloud.com/oauth/token" "id" "secret"
           (denied "invalid_client") (denied "rate limit exceeded"));
    [vm_compute; discriminate | vm_compute; discriminate | reflexivity].
Defined.

Lemma fetch_stops_without_token_witness :
  requests offline
    (HtmlPage.fetch_soundcloud_tracks "id" "secret" "radio-moafunk")
  = [token_request "https://api.soundcloud.com/oauth2/token" "id" "secret"].
Proof.
  apply (fetch_stops_without_token "https://api.soundcloud.com/oauth2/token"
           "id" "secret" "radio-moafunk" offline).
  vm_compute. discriminate.
Defined.

Lemma fetch_authentication_mode_witness :
  ∃ rq2 rq3,
    requests (api (token_reply (VStr "abc")) (error_reply 404)
                (listing_reply [public_track]))
      (JsonFile.fetch_soundcloud_tracks "id" "secret" "radio-moafunk")
    = [token_request "https://secure.soundcloud.com/oauth/token" "id" "secret";
       rq2; rq3]
    ∧ req_headers rq3 = [("Authorization", "OAuth abc")].
Proof.
  destruct (fetch_authentication_mode
              "https://secure.soundcloud.com/oauth/token" "id" "secret"
              "radio-moafunk" (token_reply (VStr "abc")) (error_reply 404)
              (listing_reply [public_track])
              {[ "access_token" := VStr "abc" ]} "radio-moafunk")
    as (rq2 & rq3 & Hreq & _ & _ & Hmode);
    [reflexivity | reflexivity | left; split; [vm_compute; discriminate | reflexivity] |].
  exists rq2, rq3. split; [exact Hreq|].
  assert (truthy (get ({[ "access_token" := VStr "abc" ]} : dict)
                    "access_token") = true) as Htoken
    by (vm_compute; reflexivity).
  rewrite Htoken in Hmode. destruct Hmode as (H2 & H3 & _).
  rewrite H3, H2. vm_compute. reflexivity.
Defined.

Lemma fetch_uses_resolved_id_witness :
  ∃ rq1 rq2 rq3,
    requests (api (token_reply (VStr "abc")) (user_reply {[ "id" := VInt 42 ]})
                (error_reply 500))
      (JsonFile.fetch_soundcloud_tracks "id" "secret" "radio-moafunk")
    = [rq1; rq2; rq3]
    ∧ req_url rq3 = "https://api.soundcloud.com/users/42/tracks?limit=50".
Proof.
  destruct (fetch_uses_resolved_id
              "https://secure.soundcloud.com/oauth/token" "id" "secret"
              "radio-moafunk" (token_reply (VStr "abc"))
              (user_reply {[ "id" := VInt 42 ]}) (error_reply 500)
              {[ "access_token" := VStr "abc" ]} {[ "id" := VInt 42 ]} 42)
    as (rq1 & rq2 & rq3 & Hreq & Hurl);
    [reflexivity | reflexivity | reflexivity | reflexivity
    | vm_compute; reflexivity |].
  exists rq1, rq2, rq3. split; [exact Hreq|]. rewrite Hurl.
  vm_compute. reflexivity.
Defined.

Lemma fetch_resolve_body_fatal_witness :
  outcome (api (token_reply (VStr "abc"))
             {| status_code := 200; text := "<html>"; body := None |}
             (listing_reply [public_track]))
    (JsonFile.fetch_soundcloud_tracks "id" "secret" "radio-moafunk")
  = Err JSONDecodeError.
Proof.
  destruct (fetch_resolve_body_fatal
              "https://secure.soundcloud.com/oauth/token" "id" "secret"
              "radio-moafunk" (token_reply (VStr "abc"))
              {| status_code := 200; text := "<html>"; body := None |}
              (listing_reply [public_track])
              {[ "access_token" := VStr "abc" ]})
    as (rq2 & _ & Hout);
    [reflexivity | reflexivity | reflexivity | by intros o' |].
  exact Hout.
Defined.

Lemma fetch_returns_filtered_listing_witness :
  outcome (api (token_reply (VStr "abc")) (user_reply {[ "id" := VInt 42 ]})
             (listing_reply [private_track; public_track]))
    (HtmlPage.fetch_soundcloud_tracks "id" "secret" "radio-moafunk")
  = Ok [public_track].
Proof.
  unfold HtmlPage.fetch_soundcloud_tracks.
  rewrite (fetch_returns_filtered_listing
             "https://api.soundcloud.com/oauth2/token" "id" "secret"
             "radio-moafunk" (token_reply (VStr "abc"))
             (user_reply {[ "id" := VInt 42 ]})
             (listing_reply [private_track; public_track])
             {[ "access_token" := VStr "abc" ]} [private_track; public_track]);
    [vm_compute; reflexivity | reflexivity | reflexivity
    | right; by eexists | reflexivity | reflexivity].
Defined.

Lemma artwork_has_no_low_resolution_suffix_witness :
  format_track_data JsonTarget [test_track] = Ok [test_record]
  ∧ ∃ a, Formatted.artwork_url test_record = VStr a
         ∧ contains a "-large.jpg" = false.
Proof.
  split; [vm_compute; reflexivity|].
  destruct (artwork_has_no_low_resolution_suffix JsonTarget [test_track]
              [test_record] 0 test_record)
    as (a & Ha & Hlarge & _); [vm_compute; reflexivity | reflexivity|].
  exists a. by split.
Defined.

Lemma falsy_artwork_gets_placeholder_witness :
  ∃ ft,
    format_track_data HtmlTarget [null_stream_track] = Ok [ft]
    ∧ Formatted.artwork_url ft = VStr "./moafunk.png".
Proof.
  eexists. split; [vm_compute; reflexivity|].
  eapply (falsy_artwork_gets_placeholder HtmlTarget [null_stream_track] _ 0
            null_stream_track);
    [vm_compute; reflexivity | reflexivity | reflexivity|].
  intros v. vm_compute. by intros [= <-].
Defined.

Lemma artwork_not_text_raises_witness :
  format_track_data HtmlTarget [ {[ "artwork_url" := VInt 7 ]} ]
  = Err AttributeError.
Proof.
  apply (artwork_not_text_raises HtmlTarget {[ "artwork_url" := VInt 7 ]}
           (VInt 7)); [vm_compute; reflexivity | reflexivity | done].
Defined.

Lemma short_description_gets_ellipsis_witness :
  ∃ ft,
    format_track_data JsonTarget [short_track] = Ok [ft]
    ∧ Formatted.description ft = VStr "Live set...".
Proof.
  eexists. split; [vm_compute; reflexivity|].
  eapply (short_description_gets_ellipsis JsonTarget [short_track] _ 0
            short_track _ "Live set");
    [vm_compute; reflexivity | reflexivity | reflexivity
    | vm_compute; reflexivity | discriminate | simpl; lia].
Defined.

Lemma falsy_description_is_empty_witness :
  ∃ ft,
    format_track_data JsonTarget [null_stream_track] = Ok [ft]
    ∧ Formatted.description ft = VStr "".
Proof.
  eexists. split; [vm_compute; reflexivity|].
  eapply (falsy_description_is_empty JsonTarget [null_stream_track] _ 0
            null_stream_track);
    [vm_compute; reflexivity | reflexivity | reflexivity|].
  intros v. vm_compute. by intros [=].
Defined.

Lemma description_not_text_raises_witness :
  format_track_data JsonTarget [numbered_track] = Err TypeError.
Proof.
  apply (description_not_text_raises JsonTarget numbered_track (VInt 5)
           "Numbers");
    try (vm_compute; reflexivity); try done;
    try (eexists; vm_compute; reflexivity).
Defined.

Lemma missing_field_raises_key_error_witness :
  format_track_data HtmlTarget [bare_track] = Err (KeyError (VStr "title")).
Proof.
  apply (missing_field_raises_key_error HtmlTarget bare_track ["id"] "title"
           ["created_at"; "duration"; "permalink_url"]).
  - reflexivity.
  - intros v. vm_compute. by intros [=].
  - intros _ v. vm_compute. by intros [=].
  - constructor; [|constructor]. eexists. vm_compute. reflexivity.
  - vm_compute. reflexivity.
Defined.

Lemma format_track_data_first_error_witness :
  format_track_data JsonTarget [test_track; bare_track; short_track]
  = Err (KeyError (VStr "title")).
Proof.
  apply (format_track_data_first_error JsonTarget [test_track] bare_track
           [short_track]); vm_compute; reflexivity.
Defined.

Lemma format_track_data_errors_witness :
  format_track_data JsonTarget [test_track; bare_track]
  = Err (KeyError (VStr "title"))
  ∧ ∃ key track,
      track ∈ [test_track; bare_track] ∧ track !! key = None
      ∧ KeyError (VStr "title") = KeyError (VStr key).
Proof.
  split; [vm_compute; reflexivity|].
  destruct (format_track_data_errors JsonTarget [test_track; bare_track]
              (KeyError (VStr "title")))
    as [H|[H|(key & track & He & Hin & Hmiss & _)]];
    [vm_compute; reflexivity | discriminate H | discriminate H |].
  exists key, track. by repeat split.
Defined.

Lemma title_not_text_witness :
  HtmlPage.format_track_data [untitled_track] = Err AttributeError
  ∧ ∃ ft, JsonFile.format_track_data [untitled_track] = Ok [ft]
          ∧ Formatted.title ft = VNone.
Proof.
  destruct (title_not_text untitled_track VNone) as [Hhtml Hjson].
  - vm_compute. reflexivity.
  - done.
  - intros a. vm_compute. by intros [=].
  - eexists. vm_compute. reflexivity.
  - split; [exact Hhtml|]. apply Hjson.
    1-3: eexists; vm_compute; reflexivity.
    intros d. vm_compute. by intros [=].
Defined.

Lemma page_text_is_escaped_witness :
  ∃ ft t,
    HtmlPage.format_track_data [short_track] = Ok [ft]
    ∧ Formatted.title ft = VStr t
    ∧ contains t "<" = false ∧ contains t ">" = false.
Proof.
  eexists. 
  destruct (page_text_is_escaped [short_track] _ 0 _
              ltac:(vm_compute; reflexivity) eq_refl)
    as (t & d & Ht & _ & Hsafe).
  exists t. split; [reflexivity|]. split; [exact Ht|].
  apply Forall_cons in Hsafe as [[H1 _] Hsafe].
  apply Forall_cons in Hsafe as [[H2 _] _]. by split.
Defined.

Lemma main_no_tracks_iff_witness :
  outcome (api (token_reply (VStr "abc")) (error_reply 404)
             (listing_reply []))
    (main JsonTarget "id" "secret" "radio-moafunk")
  = Err (Exception "No tracks found or API error occurred").
Proof.
  apply (main_no_tracks_iff "id" "secret" "radio-moafunk" JsonTarget
           (token_reply (VStr "abc")) (error_reply 404) (listing_reply [])
           {[ "access_token" := VStr "abc" ]} []);
    [reflexivity | reflexivity | left; vm_compute; discriminate
    | reflexivity | reflexivity | reflexivity].
Defined.

Lemma main_returns_records_witness :
  ∃ out,
    outcome (api (token_reply (VStr "abc")) (error_reply 404)
               (listing_reply [test_track]))
      (main HtmlTarget "id" "secret" "radio-moafunk")
    = Ok out
    ∧ (1 ≤ length out ≤ 1)%nat.
Proof.
  apply (main_returns_records "id" "secret" "radio-moafunk" HtmlTarget
           (token_reply (VStr "abc")) (error_reply 404)
           (listing_reply [test_track])
           {[ "access_token" := VStr "abc" ]} [test_track]);
    [reflexivity | reflexivity | left; vm_compute; discriminate
    | reflexivity | reflexivity
    | constructor; [apply test_track_well_formed | constructor]
    | discriminate].
Defined.

Lemma formatDuration_minutes_seconds_witness :
  ∃ tens units,
    formatDuration 185000
    = Some (pretty 3 +:+ ":" +:+ pretty tens +:+ pretty units)
    ∧ 60 * 3 + (10 * tens + units) = 185.
Proof.
  destruct (formatDuration_minutes_seconds 185000) as
    (tens & units & _ & _ & Hfmt & Hsec); [lia|].
  exists tens, units. split; [exact Hfmt | exact Hsec].
Defined.

Example formatDuration_three_minutes :
  formatDuration 180000 = Some "3:00"
  ∧ formatDuration 7265999 = Some "121:05"
  ∧ formatDuration (2 ^ 53) = None.
Proof. repeat split; vm_compute; reflexivity. Qed.

(** The page script's [main] prints its first line with the braces, the
    JSON-file script's with the username. *)
Example main_first_line :
  head (run offline (main HtmlTarget "id" "secret" "radio-moafunk")).1
  = Some (Printed "Fetching tracks from SoundCloud user: {args.username}")
  ∧ head (run offline (main JsonTarget "id" "secret" "radio-moafunk")).1
    = Some (Printed "Fetching tracks from SoundCloud user: radio-moafunk").
Proof. split; vm_compute; reflexivity. Qed.
